(** * apt-transport-oci: the acquire method, its URI grammar and its message framer

    A shallow embedding of [pkg/method/method.go] and of the vendored
    [apt/message.go] (message reader and writer), with the properties of the
    specification proved against it.

    Go strings are byte strings and are modelled by [string] (a list of 8-bit
    [ascii]); Go maps by [gmap]; fallible calls return Go's pair of a value
    and an optional [error]; code that writes to the output stream or to the
    reference cache threads the [Method] state explicitly. *)

From Stdlib Require Import ZArith NArith Lia Ascii String List DecimalString.
From Stdlib Require DecimalPos DecimalN.
From stdpp Require Import base option gmap strings list fin_maps.

Local Open Scope string_scope.
Local Open Scope list_scope.

(* ===================================================================== *)
(** ** Go's [strings] package, as far as the program uses it *)
(* ===================================================================== *)

Module gostrings.

(** [strings.HasPrefix(s, prefix)] *)
Fixpoint HasPrefix (s prefix : string) {struct prefix} : bool :=
  match prefix with
  | EmptyString => true
  | String c prefix' =>
      match s with
      | EmptyString => false
      | String d s' => if Ascii.eqb d c then HasPrefix s' prefix' else false
      end
  end.

(** [s[n:]], clipped to the length of [s] *)
Fixpoint from (n : nat) (s : string) : string :=
  match n, s with
  | O, _ => s
  | S _, EmptyString => EmptyString
  | S n', String _ s' => from n' s'
  end.

(** [s[:n]], clipped to the length of [s] *)
Fixpoint upto (n : nat) (s : string) : string :=
  match n, s with
  | O, _ => EmptyString
  | S _, EmptyString => EmptyString
  | S n', String c s' => String c (upto n' s')
  end.

(** [strings.TrimPrefix(s, prefix)] *)
Definition TrimPrefix (s prefix : string) : string :=
  if HasPrefix s prefix then from (String.length prefix) s else s.

(** [strings.HasSuffix(s, suffix)] *)
Definition HasSuffix (s suffix : string) : bool :=
  (String.length suffix <=? String.length s)%nat
  && String.eqb (from (String.length s - String.length suffix) s) suffix.

(** [strings.TrimSuffix(s, suffix)] *)
Definition TrimSuffix (s suffix : string) : string :=
  if HasSuffix s suffix
  then upto (String.length s - String.length suffix) s
  else s.

(** whether the byte [c] occurs in [s] ([strings.IndexByte(s, c) >= 0]) *)
Fixpoint occurs (c : ascii) (s : string) : bool :=
  match s with
  | EmptyString => false
  | String d s' => if Ascii.eqb d c then true else occurs c s'
  end.

(** the two halves of [s] around the first occurrence of the byte [sep] *)
Fixpoint cut (sep : ascii) (s : string) : option (string * string) :=
  match s with
  | EmptyString => None
  | String d s' =>
      if Ascii.eqb d sep then Some (EmptyString, s')
      else match cut sep s' with
           | Some (a, b) => Some (String d a, b)
           | None => None
           end
  end.

(** [strings.SplitN(s, sep, 2)] for a one-byte separator: [[s]] when the
    separator does not occur, otherwise the text before and the text after
    its first occurrence. *)
Definition SplitN2 (s : string) (sep : ascii) : list string :=
  match cut sep s with
  | None => [s]
  | Some (a, b) => [a; b]
  end.

End gostrings.
Import gostrings.

(* ===================================================================== *)
(** ** Go errors *)
(* ===================================================================== *)

(** The error values the program creates or inspects.  [io.EOF] and its
    siblings are sentinel values compared by identity; [errors.New] and
    [fmt.Errorf] without [%w] give a fresh value that only carries its text;
    [fmt.Errorf] with [%w] carries its text and the wrapped error, which
    [errors.Is] follows. *)
Inductive error : Type :=
| io_EOF
| io_ErrClosedPipe
| io_ErrNoProgress
| io_ErrShortBuffer
| images_ErrSkipDesc
| errorString (text : string)
| wrapError (text : string) (inner : error).

(** the sentinels [Run] and [images.Dispatch] test for *)
Inductive sentinel : Type :=
  sEOF | sErrClosedPipe | sErrNoProgress | sErrShortBuffer | sErrSkipDesc.

(** [err.Error()] *)
Definition Error (e : error) : string :=
  match e with
  | io_EOF => "EOF"
  | io_ErrClosedPipe => "io: read/write on closed pipe"
  | io_ErrNoProgress => "multiple Read calls return no data or error"
  | io_ErrShortBuffer => "short buffer"
  | images_ErrSkipDesc => "skip descriptor"
  | errorString text => text
  | wrapError text _ => text
  end.

(** [errors.Is(err, target)] for a sentinel target: identity, or identity of
    an error reached by unwrapping. *)
Fixpoint errors_Is (e : error) (target : sentinel) : bool :=
  match e, target with
  | io_EOF, sEOF => true
  | io_ErrClosedPipe, sErrClosedPipe => true
  | io_ErrNoProgress, sErrNoProgress => true
  | io_ErrShortBuffer, sErrShortBuffer => true
  | images_ErrSkipDesc, sErrSkipDesc => true
  | wrapError _ inner, _ => errors_Is inner target
  | _, _ => false
  end.

Definition is_Some_b {A : Type} (o : option A) : bool :=
  match o with Some _ => true | None => false end.

(** [err == io.EOF] *)
Definition is_io_EOF (e : error) : bool :=
  match e with io_EOF => true | _ => false end.

(* ===================================================================== *)
(** ** [parseURI] *)
(* ===================================================================== *)

Definition colon : ascii := ":"%char.
Definition slash : ascii := "/"%char.

(** [parseURI(uri) (repo, path string, _ error)] *)
Definition parseURI (uri : string) : string * string * option error :=
  let trimmed := TrimPrefix uri "oci://" in
  if String.eqb trimmed uri then
    ("", "", Some (errorString "missing oci:// protocol in uri"))
  else
    let split := SplitN2 trimmed colon in
    if (length split <? 2)%nat then
      ("", "", Some (errorString "uri is missing repo tag"))
    else
      let repo := "oci://" +:+ nth 0 split "" +:+ ":" in
      let tagAndFile := SplitN2 (nth 1 split "") slash in
      let repo := repo +:+ nth 0 tagAndFile "" +:+ "/" in
      let path := if (1 <? length tagAndFile)%nat then nth 1 tagAndFile "" else "" in
      (repo, path, None).

(* ===================================================================== *)
(** ** Data model *)
(* ===================================================================== *)

(** [apt.Message] *)
Record Message : Type := mkMessage {
  StatusCode : N;                       (* uint64 *)
  Description : string;
  Fields : gmap string string
}.

(** [apt.Field] *)
Record Field : Type := mkField { Key : string; Value : string }.

(** [ocispec.Descriptor]; a digest is the string [algorithm:encoded] *)
Record Descriptor : Type := mkDescriptor {
  MediaType : string;
  Digest : string;
  Size : Z;                             (* int64 *)
  Annotations : gmap string string
}.

(** [m[k]] on a Go [map[string]string]: the zero value when [k] is absent *)
Definition index (m : gmap string string) (k : string) : string :=
  default "" (m !! k).

Definition CodeURIAcquire : N := 600.
Definition FieldURI : string := "URI".
Definition FieldMessage : string := "Message".
Definition FieldTargetRepoURI : string := "Target-Repo-URI".
Definition FieldFilename : string := "Filename".
Definition FieldSize : string := "Size".
Definition FieldSHA256Hash : string := "SHA256-Hash".

Definition MediaTypeApplicationXBinary : string := "application/x-binary".
Definition MediaTypeApplicationOctetStream : string := "application/octet-stream".

(** constants of containerd's [images] and of [ocispec] *)
Definition MediaTypeDockerSchema2Manifest : string :=
  "application/vnd.docker.distribution.manifest.v2+json".
Definition MediaTypeImageManifest : string :=
  "application/vnd.oci.image.manifest.v1+json".
Definition MediaTypeDockerSchema2ManifestList : string :=
  "application/vnd.docker.distribution.manifest.list.v2+json".
Definition MediaTypeImageIndex : string :=
  "application/vnd.oci.image.index.v1+json".
Definition AnnotationTitle : string := "org.opencontainers.image.title".

(** the double quote, for texts that contain one *)
Definition dq : string := String (ascii_of_nat 34) EmptyString.
(** the line feed *)
Definition LF : ascii := ascii_of_nat 10.

(** [%d] of an unsigned and of a signed integer *)
Definition fmt_d_N (n : N) : string := NilZero.string_of_uint (N.to_uint n).
Definition fmt_d_Z (z : Z) : string := NilZero.string_of_int (Z.to_int z).

(* ===================================================================== *)
(** ** Library functions the program calls *)
(* ===================================================================== *)

(** Functions of Go's standard library and of the imported packages whose
    bodies are outside the repository.  The program is modelled over any
    implementation of them; the properties below hold for each. *)
Class GoLib : Type := {
  (** [strconv.Quote], the rendering of [%q] *)
  strconv_Quote : string -> string;
  (** [strings.TrimSpace] *)
  strings_TrimSpace : string -> string;
  (** [path.Clean] *)
  path_Clean : string -> string;
  (** [fmt.Sprintf("%+v", x)] for a message and for a descriptor *)
  fmt_v_Message : Message -> string;
  fmt_v_Descriptor : Descriptor -> string;
  (** [refdocker.Named], its [String()] and [refdocker.Domain] *)
  Named : Type;
  Named_String : Named -> string;
  refdocker_Domain : Named -> string;
  (** [refdocker.ParseDockerRef] *)
  refdocker_ParseDockerRef : string -> error + Named;
  (** [json.Unmarshal] into an [ocispec.Manifest], read at [.Layers], and
      into an [ocispec.Index], read at [.Manifests] *)
  json_Unmarshal_Manifest : string -> error + list Descriptor;
  json_Unmarshal_Index : string -> error + list Descriptor;
  (** the lower-case hexadecimal SHA-256 of a byte string *)
  sha256_hex : string -> string;
  (** [version.Major] and [version.Minor] of [pkg/version] *)
  version_Major : N;
  version_Minor : N
}.

(* ===================================================================== *)
(** ** The message reader ([apt/message.go]) *)
(* ===================================================================== *)

(** A [bufio.Reader] over the input: the bytes not yet consumed, and the
    error the underlying stream reports once they are used up ([io.EOF] for a
    stream that ends, [io.ErrClosedPipe] for a closed pipe). *)
Record bufioReader : Type := mkBufio {
  unread : string;
  streamErr : error
}.

(** [reader.ReadString('\n')]: the text up to and including the first line
    feed; when there is none, the remaining text and the stream's error. *)
Definition ReadString (rd : bufioReader) : (string * option error) * bufioReader :=
  match cut LF (unread rd) with
  | Some (line, rest) =>
      ((line +:+ String LF EmptyString, None), mkBufio rest (streamErr rd))
  | None =>
      ((unread rd, Some (streamErr rd)), mkBufio EmptyString (streamErr rd))
  end.

(** [apt.MessageReader] *)
Record MessageReader : Type := mkReader {
  reader : bufioReader;
  message : option Message
}.

Definition NewMessageReader (rd : bufioReader) : MessageReader := mkReader rd None.

(** [strconv.ParseUint(s, 10, 64)] *)
Definition maxUint64 : N := 18446744073709551615.

Definition NumError (s what : string) `{GoLib} : error :=
  errorString ("strconv.ParseUint: parsing " +:+ strconv_Quote s +:+ ": " +:+ what).

Fixpoint ParseUint_digits `{GoLib} (s0 s : string) (n : N) : N * option error :=
  match s with
  | EmptyString => (n, None)
  | String c s' =>
      let code := N_of_ascii c in
      if (48 <=? code)%N && (code <=? 57)%N then
        let d := (code - 48)%N in
        if (maxUint64 / 10 + 1 <=? n)%N then
          (maxUint64, Some (NumError s0 "value out of range"))
        else
          let n1 := (n * 10 + d)%N in
          if (maxUint64 <? n1)%N then
            (maxUint64, Some (NumError s0 "value out of range"))
          else ParseUint_digits s0 s' n1
      else (0%N, Some (NumError s0 "invalid syntax"))
  end.

Definition ParseUint `{GoLib} (s : string) : N * option error :=
  if String.eqb s "" then (0%N, Some (NumError s "invalid syntax"))
  else ParseUint_digits s s 0%N.

(** [ParseHeader(line)] *)
Definition ParseHeader `{GoLib} (line : string) : option Message * option error :=
  let line := strings_TrimSpace line in
  if String.eqb line "" then
    (None, Some (errorString "not a header spec: Empty line"))
  else
    let parts := SplitN2 line " "%char in
    if negb (length parts =? 2)%nat then
      (None, Some (errorString ("not a header spec: " +:+ dq +:+ line +:+ dq)))
    else
      let codeStr := strings_TrimSpace (nth 0 parts "") in
      match ParseUint codeStr with
      | (_, Some err) =>
          (None, Some (errorString ("could not parse Status Code: " +:+ Error err)))
      | (code, None) =>
          let desc := strings_TrimSpace (nth 1 parts "") in
          if String.eqb desc "" then
            (None, Some (errorString
               ("empty description header for " +:+ dq +:+ line +:+ dq)))
          else
            (Some (mkMessage code desc ∅), None)
      end.

(** [r.readHeader()]: the result, and the reader after the line is consumed *)
Definition readHeader `{GoLib} (rd : bufioReader)
  : (option Message * option error) * bufioReader :=
  match ReadString rd with
  | ((_, Some err), rd') => ((None, Some err), rd')
  | ((line, None), rd') => (ParseHeader line, rd')
  end.

(** [r.commitMessage(newmsg)]: hands out the current message and installs
    [newmsg] in its place. *)
Definition commitMessage (r : MessageReader) (newmsg : option Message)
  : option Message * MessageReader :=
  (message r, mkReader (reader r) newmsg).

Definition errNewMessageStarted : error :=
  errorString "new message started without old message ending".

(** [r.ReadLine()] *)
Definition ReadLine `{GoLib} (r : MessageReader)
  : (option Message * option error) * MessageReader :=
  match message r with
  | None =>
      match readHeader (reader r) with
      | ((_, Some err), rd') => ((None, Some err), mkReader rd' None)
      | ((msg, None), rd') => ((None, None), mkReader rd' msg)
      end
  | Some cur =>
      match ReadString (reader r) with
      | ((_, Some err), rd') =>
          let '(msg, r') := commitMessage (mkReader rd' (Some cur)) None in
          ((msg, Some err), r')
      | ((line, None), rd') =>
          let line := strings_TrimSpace line in
          if String.eqb line "" then
            let '(msg, r') := commitMessage (mkReader rd' (Some cur)) None in
            ((msg, None), r')
          else
            let parts := SplitN2 line colon in
            if negb (length parts =? 2)%nat then
              match ParseHeader line with
              | (_, Some _) =>
                  ((None, Some (errorString
                      ("invalid field format in " +:+ dq +:+ line +:+ dq))),
                   mkReader rd' (Some cur))
              | (msg, None) =>
                  let '(old, r') := commitMessage (mkReader rd' (Some cur)) msg in
                  ((old, Some errNewMessageStarted), r')
              end
            else
              let key := strings_TrimSpace (nth 0 parts "") in
              let value := strings_TrimSpace (nth 1 parts "") in
              ((None, None),
               mkReader rd'
                 (Some (mkMessage (StatusCode cur) (Description cur)
                                  (<[key := value]> (Fields cur)))))
      end
  end.

(** [errorGroup(header, errs)] *)
Definition errorGroup (header : string) (errs : list error) : error :=
  errorString
    (fold_left (fun sb e => sb +:+ String LF "  " +:+ Error e) errs header).

Definition errorsWhileReading (errs : list error) : error :=
  errorGroup "Errors while reading message:" errs.

(** [r.ReadMessage()].  The loop [for msg == nil] runs once per line; [fuel]
    bounds the number of lines read, and [None] says the bound was reached
    with the loop still running. *)
Fixpoint ReadMessage_loop `{GoLib} (fuel : nat) (errs : list error) (r : MessageReader)
  : option ((option Message * option error) * MessageReader) :=
  match fuel with
  | O => None
  | S fuel' =>
      match ReadLine r with
      | ((msg, Some err), r') =>
          if is_Some_b msg || is_io_EOF err then
            match errs with
            | [] => Some ((msg, Some err), r')
            | _ :: _ => Some ((msg, Some (errorsWhileReading (errs ++ [err]))), r')
            end
          else ReadMessage_loop fuel' (errs ++ [err]) r'
      | ((None, None), r') => ReadMessage_loop fuel' errs r'
      | ((Some msg, None), r') =>
          match errs with
          | [] => Some ((Some msg, None), r')
          | _ :: _ => Some ((Some msg, Some (errorsWhileReading errs)), r')
          end
      end
  end.

Definition ReadMessage `{GoLib} (fuel : nat) (r : MessageReader) :=
  ReadMessage_loop fuel [] r.

(* ===================================================================== *)
(** ** The message writer ([apt/message.go]) *)
(* ===================================================================== *)

(** One constructor per framed message the writer puts on the output
    stream, with the arguments of the writer method that produced it. *)
Inductive OutMsg : Type :=
| out_Capabilities (version : string) (caps : N)
| out_Log (msg : string)
| out_WriteMessage (msg : Message)
| out_Warning (msg : string)
| out_StartURI (uri resumePoint : string) (size : Z) (usedMirror : bool)
| out_FinishURI (uri filename resumePoint altIMSHit : string)
                (imsHit usedMirror : bool) (extra : list Field)
| out_FailedURI (uri message failReason : string) (transientError usedMirror : bool)
| out_GeneralFailure (msg : string).

(** the header line of each message *)
Definition header (o : OutMsg) : string :=
  match o with
  | out_Capabilities _ _ => "100 Capabilities"
  | out_Log _ => "101 Log"
  | out_WriteMessage msg => fmt_d_N (StatusCode msg) +:+ " " +:+ Description msg
  | out_Warning _ => "104 Warning"
  | out_StartURI _ _ _ _ => "200 URI Start"
  | out_FinishURI _ _ _ _ _ _ _ => "201 URI Done"
  | out_FailedURI _ _ _ _ _ => "400 URI Failure"
  | out_GeneralFailure _ => "401 General Failure"
  end.

Definition is_StartURI (o : OutMsg) : bool :=
  match o with out_StartURI _ _ _ _ => true | _ => false end.

Definition is_GeneralFailure (o : OutMsg) : bool :=
  match o with out_GeneralFailure _ => true | _ => false end.

Definition is_WriteMessage (o : OutMsg) : bool :=
  match o with out_WriteMessage _ => true | _ => false end.

(* ===================================================================== *)
(** ** The registry client and the local file system *)
(* ===================================================================== *)

(** An [io.ReadCloser] handed out by a fetcher: the bytes it delivers, the
    error (other than [io.EOF]) that ends the delivery, and the result of
    [Close]. *)
Record ReadCloser : Type := mkReadCloser {
  rc_content : string;
  rc_readErr : option error;
  rc_closeErr : option error
}.

(** [remotes.Fetcher] *)
Record Fetcher : Type := mkFetcher {
  Fetch : Descriptor -> error + ReadCloser
}.

(** [remotes.Resolver] *)
Record Resolver : Type := mkResolver {
  Resolve : string -> error + (string * Descriptor);
  Resolver_Fetcher : string -> error + Fetcher
}.

(** An [os.File] opened for writing: the results of writing to it and of
    closing it. *)
Record File : Type := mkFile {
  File_writeErr : option error;
  File_closeErr : option error
}.

(** What happens next among the goroutines that [images.Dispatch] starts:
    the goroutine at position [i] (counted modulo their number) takes its
    next step, or two goroutines assign to the map at the same time. *)
Inductive Event : Type :=
| ev_step (i : nat)
| ev_clash.

(** What lies outside the process: the registry client behind
    [dockerconfigresolver.New], [os.Create], and what happens, event by
    event, among the goroutines of [images.Dispatch]. *)
Record World : Type := mkWorld {
  dockerconfigresolver_New : string -> error + Resolver;
  os_Create : string -> error + File;
  handler_order : list Event
}.

(** The three ways a call ends: it returns, it panics, or the model's bound
    on the number of loop iterations was reached. *)
Inductive Res (A : Type) : Type :=
| Returns (a : A)
| Panics (why : string)
| OutOfFuel.
Arguments Returns {A} a.
Arguments Panics {A} why.
Arguments OutOfFuel {A}.

#[export] Instance Res_bind : MBind Res := fun A B f x =>
  match x with
  | Returns a => f a
  | Panics why => Panics why
  | OutOfFuel => OutOfFuel
  end.

(* ===================================================================== *)
(** ** [buildFileMap] *)
(* ===================================================================== *)

Definition isManifest (mediaType : string) : bool :=
  String.eqb mediaType MediaTypeDockerSchema2Manifest
  || String.eqb mediaType MediaTypeImageManifest.

Definition isIndex (mediaType : string) : bool :=
  String.eqb mediaType MediaTypeDockerSchema2ManifestList
  || String.eqb mediaType MediaTypeImageIndex.

(** [fetcher.Fetch(ctx, desc)] followed by [ioutil.ReadAll(r)] *)
Definition fetchAll (fetcher : Fetcher) (desc : Descriptor) : error + string :=
  match Fetch fetcher desc with
  | inl err => inl err
  | inr r =>
      match rc_readErr r with
      | Some err => inl err
      | None => inr (rc_content r)
      end
  end.

(** [l.Annotations[ocispec.AnnotationTitle]] *)
Definition title_of (l : Descriptor) : string := index (Annotations l) AnnotationTitle.

(** one turn of the loop [for _, l := range manifest.Layers] of the handler *)
Definition fileLayer `{GoLib} (l : Descriptor) (files : gmap string Descriptor)
  : gmap string Descriptor :=
  let title := title_of l in
  if negb (String.eqb title "") then
    let cleanPath := path_Clean title in
    <[cleanPath := l]> files
  else files.

(** the loop [for _, l := range manifest.Layers] of the handler, when nothing
    else touches the map in between *)
Definition recordLayers `{GoLib} (layers : list Descriptor)
    (files : gmap string Descriptor) : gmap string Descriptor :=
  fold_left (fun files l => fileLayer l files) layers files.

(** What the handler closure of [buildFileMap] has done when it reaches its
    loop or returns without one: for a manifest it has the layers to loop
    over, for an index the children it returns, for any other media type no
    children; or it returns an error. *)
Inductive Handled : Type :=
| toFile (layers : list Descriptor)
| toVisit (children : list Descriptor)
| handlerFailed (err : error).

(** the handler closure of [buildFileMap], up to its loop over the layers *)
Definition handler `{GoLib} (fetcher : Fetcher) (desc : Descriptor) : Handled :=
  if isManifest (MediaType desc) then
    match fetchAll fetcher desc with
    | inl err => handlerFailed err
    | inr b =>
        match json_Unmarshal_Manifest b with
        | inl err => handlerFailed err
        | inr layers => toFile layers
        end
    end
  else if isIndex (MediaType desc) then
    match fetchAll fetcher desc with
    | inl err => handlerFailed err
    | inr b =>
        match json_Unmarshal_Index b with
        | inl err => handlerFailed err
        | inr manifests => toVisit manifests
        end
    end
  else toVisit [].

(** What a goroutine of [images.Dispatch] has ahead of it: the call of the
    handler on its descriptor, or, inside the handler, the turns of the loop
    over the layers that are left. *)
Inductive Goroutine : Type :=
| go_Handle (desc : Descriptor)
| go_Layers (layers : list Descriptor).

(** The goroutine has an assignment to the map ahead of it. *)
Definition assigns (g : Goroutine) : bool :=
  match g with
  | go_Handle _ => false
  | go_Layers layers => existsb (fun l => negb (String.eqb (title_of l) "")) layers
  end.

(** the list [l] with the elements [new] in the place of the one at
    position [j] *)
Definition splice {A : Type} (j : nat) (new l : list A) : list A :=
  take j l ++ new ++ drop (S j) l.

(** the error an [errgroup] keeps: the first *)
Definition firstError (failed : option error) (err : error) : option error :=
  match failed with
  | Some _ => failed
  | None => Some err
  end.

(** The text of the Go runtime's fatal error for two unsynchronised
    assignments to one map; no [recover] catches it, the process ends. *)
Definition concurrentMapWrites : string := "concurrent map writes".

(** containerd's [images.Dispatch(ctx, handler, nil, descs...)].  It starts a
    goroutine per descriptor and waits for them all; each goroutine runs the
    handler on its descriptor and then dispatches, in the same way, the
    children the handler returned; an error that is [ErrSkipDesc] only drops
    the children, and of the other errors the first is the result.  The
    goroutines run in parallel, and the handler of [buildFileMap] assigns to
    the map [files] it has captured without a lock.  [running] holds the
    goroutines that have not ended, and [order] is what happens, event by
    event: a step of one goroutine (the call of the handler up to its loop,
    one turn of the loop, or the return), or, when two goroutines have an
    assignment to the map ahead, the two assignments at once, on which the Go
    runtime ends the process.  A clash that cannot happen, for want of two
    such goroutines, is passed over.  The fetcher is taken not to look at the
    context, so that a handler that starts after another has failed fetches
    as it would have.  The end of [order] with goroutines still running is
    the bound of the model. *)
Fixpoint Dispatch `{GoLib} (order : list Event) (fetcher : Fetcher)
    (running : list Goroutine) (files : gmap string Descriptor)
    (failed : option error)
  : Res (gmap string Descriptor * option error) :=
  match running with
  | [] => Returns (files, failed)
  | _ :: _ =>
      match order with
      | [] => OutOfFuel
      | ev_clash :: order' =>
          if (2 <=? length (List.filter assigns running))%nat
          then Panics concurrentMapWrites
          else Dispatch order' fetcher running files failed
      | ev_step i :: order' =>
          let j := (i mod length running)%nat in
          match running !! j with
          | None => OutOfFuel
          | Some (go_Handle desc) =>
              match handler fetcher desc with
              | toFile layers =>
                  Dispatch order' fetcher (splice j [go_Layers layers] running)
                           files failed
              | toVisit children =>
                  Dispatch order' fetcher (splice j (map go_Handle children) running)
                           files failed
              | handlerFailed err =>
                  if errors_Is err sErrSkipDesc then
                    Dispatch order' fetcher (splice j [] running) files failed
                  else
                    Dispatch order' fetcher (splice j [] running) files
                             (firstError failed err)
              end
          | Some (go_Layers []) =>
              Dispatch order' fetcher (splice j [] running) files failed
          | Some (go_Layers (l :: layers)) =>
              Dispatch order' fetcher (splice j [go_Layers layers] running)
                       (fileLayer l files) failed
          end
      end
  end.

(** [buildFileMap(ctx, fetcher, rootDesc)] *)
Definition buildFileMap `{GoLib} (order : list Event) (fetcher : Fetcher)
    (rootDesc : Descriptor) : Res (error + gmap string Descriptor) :=
  '(files, err) ← Dispatch order fetcher [go_Handle rootDesc] ∅ None;
  match err with
  | Some err => Returns (inl err)
  | None => Returns (inr files)
  end.

(** *** The registry graph, to state what [buildFileMap] computes *)

(** the layers that the handler loops over for [desc] *)
Definition layers `{GoLib} (fetcher : Fetcher) (desc : Descriptor) : list Descriptor :=
  match handler fetcher desc with
  | toFile layers => layers
  | _ => []
  end.

(** the children that the handler returns for [desc] *)
Definition children `{GoLib} (fetcher : Fetcher) (desc : Descriptor) : list Descriptor :=
  match handler fetcher desc with
  | toVisit children => children
  | _ => []
  end.


(** a layer whose title is not empty, and the path it is filed under *)
Definition titled (l : Descriptor) : Prop := title_of l ≠ "".
Definition keyOf `{GoLib} (l : Descriptor) : string := path_Clean (title_of l).

(** the events that are steps *)
Definition steps (order : list Event) : nat :=
  length (List.filter (fun e => match e with ev_step _ => true | ev_clash => false end)
                      order).

(* ===================================================================== *)
(** ** The method: request fields, the reference cache, [acquire], [Run] *)
(* ===================================================================== *)

(** [cacheByOCIRef] *)
Record cacheByOCIRef : Type := mkCache {
  fetcher : Fetcher;
  fileMap : gmap string Descriptor
}.

(** [Method]: the messages written to [w] so far, the reader [r], and the
    cache. *)
Record Method : Type := mkMethod {
  Method_w : list OutMsg;
  Method_r : MessageReader;
  Method_cacheByOCIRef : gmap string cacheByOCIRef
}.

(** [New(out, in)] *)
Definition New (input : bufioReader) : Method :=
  mkMethod [] (NewMessageReader input) ∅.

(** one message written to [m.w] *)
Definition write (o : OutMsg) (m : Method) : Method :=
  mkMethod (Method_w m ++ [o]) (Method_r m) (Method_cacheByOCIRef m).

(** [m.Status(uri, s)] *)
Definition Status (uri s : string) (m : Method) : Method :=
  write (out_WriteMessage
           (mkMessage 102 "Status" (<[FieldURI := uri]> (<[FieldMessage := s]> ∅)))) m.

(** [parseURIFields(msg)] *)
Definition parseURIFields `{GoLib} (msg : Message) : error + (Named * string) :=
  let repoURI := index (Fields msg) FieldTargetRepoURI in
  let derived : error + string :=
    if String.eqb repoURI "" then
      let uri := index (Fields msg) FieldURI in
      if String.eqb uri "" then
        inl (errorString ("missing field " +:+ strconv_Quote FieldTargetRepoURI))
      else
        match parseURI uri with
        | (_, _, Some err) => inl err
        | (repo, _, None) => inr repo
        end
    else inr repoURI in
  match derived with
  | inl err => inl err
  | inr repoURI =>
      if negb (HasPrefix repoURI "oci://") then
        inl (errorString
               ("field " +:+ FieldTargetRepoURI +:+ " lacks " +:+ dq +:+ "oci://"
                +:+ dq +:+ " prefix: " +:+ strconv_Quote repoURI))
      else
        let refTmp := TrimPrefix repoURI "oci://" in
        let refTmp := TrimSuffix refTmp "/" in
        match refdocker_ParseDockerRef refTmp with
        | inl err =>
            inl (wrapError
                   ("failed to parse " +:+ strconv_Quote refTmp +:+ " ("
                    +:+ FieldTargetRepoURI +:+ "=" +:+ strconv_Quote repoURI
                    +:+ ") as Docker reference: " +:+ Error err) err)
        | inr ociRef =>
            let title := TrimPrefix (index (Fields msg) FieldURI) repoURI in
            let title := TrimPrefix title "./" in
            inr (ociRef, title)
        end
  end.

(** [m.ociResolver(named)] *)
Definition ociResolver `{GoLib} (W : World) (named : Named) : error + Resolver :=
  let ref := Named_String named in
  let refDomain := refdocker_Domain named in
  match dockerconfigresolver_New W refDomain with
  | inl err =>
      inl (wrapError
             ("failed to create a resolver for refDomain=" +:+ strconv_Quote refDomain
              +:+ " (ref=" +:+ strconv_Quote ref +:+ "): " +:+ Error err) err)
  | inr resolver => inr resolver
  end.

(** [m.ociFetcher(ctx, named, resolver)] *)
Definition ociFetcher `{GoLib} (named : Named) (resolver : Resolver)
  : error + (Fetcher * Descriptor) :=
  let ref := Named_String named in
  match Resolve resolver ref with
  | inl err =>
      inl (wrapError
             ("failed to resolve ref=" +:+ strconv_Quote ref +:+ ": " +:+ Error err) err)
  | inr (ociName, rootDesc) =>
      match Resolver_Fetcher resolver ociName with
      | inl err => inl err
      | inr fetcher => inr (fetcher, rootDesc)
      end
  end.

(** [m.doCacheStuff(ctx, uri, ociRef)] *)
Definition doCacheStuff `{GoLib} (W : World) (uri : string) (ociRef : Named)
    (m : Method) : Res ((error + cacheByOCIRef) * Method) :=
  match Method_cacheByOCIRef m !! Named_String ociRef with
  | Some x => Returns (inr x, m)
  | None =>
      let m := Status uri ("Creating a resolver for ociRef="
                           +:+ strconv_Quote (Named_String ociRef)) m in
      match ociResolver W ociRef with
      | inl err => Returns (inl err, m)
      | inr resolver =>
          let m := Status uri ("Creating a fetcher for ociRef="
                               +:+ strconv_Quote (Named_String ociRef)) m in
          match ociFetcher ociRef resolver with
          | inl err => Returns (inl err, m)
          | inr (fetcher, rootDesc) =>
              let m := Status uri ("Building file map for rootDesc="
                                   +:+ fmt_v_Descriptor rootDesc) m in
              built ← buildFileMap (handler_order W) fetcher rootDesc;
              match built with
              | inl err => Returns (inl err, m)
              | inr fileMap =>
                  let c := mkCache fetcher fileMap in
                  Returns (inr c,
                           mkMethod (Method_w m) (Method_r m)
                             (<[Named_String ociRef := c]> (Method_cacheByOCIRef m)))
              end
          end
      end
  end.

(** [digest.Digest.Algorithm()] and [digest.Digest.Encoded()]: the text
    before and after the first colon; both panic when there is none. *)
Definition Digest_Algorithm (d : string) : Res string :=
  match cut colon d with
  | Some (alg, _) => Returns alg
  | None => Panics "no ':' separator in digest"
  end.

Definition Digest_Encoded (d : string) : Res string :=
  match cut colon d with
  | Some (_, enc) => Returns enc
  | None => Panics "no ':' separator in digest"
  end.

(** [digester.Digest()] of a SHA-256 digester that was fed [content] *)
Definition SHA256_Digest `{GoLib} (content : string) : string :=
  "sha256:" +:+ sha256_hex content.

(** the test [desc.Digest.Algorithm() == dig.Algorithm() &&
    desc.Digest.Encoded() != dig.Encoded()] *)
Definition digestMismatch (declared dig : string) : Res bool :=
  a ← Digest_Algorithm declared;
  b ← Digest_Algorithm dig;
  if String.eqb a b then
    x ← Digest_Encoded declared;
    y ← Digest_Encoded dig;
    Returns (negb (String.eqb x y))
  else Returns false.

(** [io.Copy(io.MultiWriter(w, hasher), r)]: a write to the file comes before
    the next read, so with bytes to deliver a failing file fails first. *)
Definition io_Copy (w : File) (r : ReadCloser) : option error :=
  match File_writeErr w with
  | Some err => if String.eqb (rc_content r) "" then rc_readErr r else Some err
  | None => rc_readErr r
  end.

(** [m.acquire(ctx, msg)] *)
Definition acquire `{GoLib} (W : World) (msg : Message) (m : Method)
  : Res ((bool * option error) * Method) :=
  let started := false in
  let uri := index (Fields msg) FieldURI in
  let filename := index (Fields msg) FieldFilename in
  let m := Status uri ("Parsing msg: " +:+ fmt_v_Message msg) m in
  match parseURIFields msg with
  | inl err => Returns ((started, Some err), m)
  | inr (ociRef, title) =>
      '(cached, m) ← doCacheStuff W uri ociRef m;
      match cached with
      | inl err => Returns ((started, Some err), m)
      | inr c =>
          match fileMap c !! title with
          | None =>
              Returns ((started,
                        Some (errorString
                                ("file not found in "
                                 +:+ strconv_Quote (Named_String ociRef) +:+ ": "
                                 +:+ strconv_Quote title))), m)
          | Some desc =>
              let m := Status uri ("Found descriptor for " +:+ strconv_Quote title
                                   +:+ ": " +:+ fmt_v_Descriptor desc) m in
              let m :=
                if String.eqb (MediaType desc) MediaTypeApplicationOctetStream
                   || String.eqb (MediaType desc) MediaTypeApplicationXBinary
                then m
                else write (out_Warning
                       ("expected media type of " +:+ strconv_Quote title
                        +:+ " to be " +:+ strconv_Quote MediaTypeApplicationXBinary
                        +:+ ", got " +:+ strconv_Quote (MediaType desc))) m in
              let resumePoint := "" in
              let usedMirror := false in
              let m := write (out_StartURI uri resumePoint (Size desc) usedMirror) m in
              let started := true in
              match Fetch (fetcher c) desc with
              | inl err => Returns ((started, Some err), m)
              | inr r =>
                  match os_Create W filename with
                  | inl err => Returns ((started, Some err), m)
                  | inr w =>
                      match io_Copy w r with
                      | Some err => Returns ((started, Some err), m)
                      | None =>
                          match File_closeErr w with
                          | Some err => Returns ((started, Some err), m)
                          | None =>
                              match rc_closeErr r with
                              | Some err => Returns ((started, Some err), m)
                              | None =>
                                  let dig := SHA256_Digest (rc_content r) in
                                  mismatch ← digestMismatch (Digest desc) dig;
                                  if (mismatch : bool) then
                                    Returns ((started,
                                      Some (errorString
                                        ("expected digest of " +:+ strconv_Quote title
                                         +:+ " to be " +:+ Digest desc
                                         +:+ ", got " +:+ dig))), m)
                                  else
                                    encoded ← Digest_Encoded dig;
                                    let fields :=
                                      [mkField FieldSize (fmt_d_Z (Size desc));
                                       mkField FieldSHA256Hash encoded] in
                                    let m := write (out_FinishURI uri filename resumePoint
                                                      "" false usedMirror fields) m in
                                    Returns ((started, None), m)
                              end
                          end
                      end
                  end
              end
          end
      end
  end.

(** [m.handleURIAcquire(ctx, msg)] *)
Definition handleURIAcquire `{GoLib} (W : World) (msg : Message) (m : Method)
  : Res Method :=
  '((started, err), m) ← acquire W msg m;
  match err with
  | Some err =>
      let transientError := false in
      let usedMirror := false in
      let uri := index (Fields msg) FieldURI in
      let m := if negb started then write (out_StartURI uri "" 0 usedMirror) m else m in
      Returns (write (out_FailedURI uri (Error err) (Error err)
                        transientError usedMirror) m)
  | None => Returns m
  end.

(** the method after the first status message of [acquire] *)
Definition parsing `{GoLib} (msg : Message) (m : Method) : Method :=
  Status (index (Fields msg) FieldURI) ("Parsing msg: " +:+ fmt_v_Message msg) m.

(** the error of [acquire] for a title that is not in the file map *)
Definition fileNotFound `{GoLib} (ociRef : Named) (title : string) : error :=
  errorString ("file not found in " +:+ strconv_Quote (Named_String ociRef) +:+ ": "
               +:+ strconv_Quote title).

(** The method as [acquire] leaves it at [started = true]: [mid] is the
    method after the cache step, to which the status message for the
    descriptor found, the media type warning if one is due, and the
    [200 URI Start] have been written.  Used to state what [acquire]
    returns. *)
Definition afterStart `{GoLib} (msg : Message) (title : string) (desc : Descriptor)
    (mid : Method) : Method :=
  let uri := index (Fields msg) FieldURI in
  let m := Status uri ("Found descriptor for " +:+ strconv_Quote title
                       +:+ ": " +:+ fmt_v_Descriptor desc) mid in
  let m :=
    if String.eqb (MediaType desc) MediaTypeApplicationOctetStream
       || String.eqb (MediaType desc) MediaTypeApplicationXBinary
    then m
    else write (out_Warning
           ("expected media type of " +:+ strconv_Quote title
            +:+ " to be " +:+ strconv_Quote MediaTypeApplicationXBinary
            +:+ ", got " +:+ strconv_Quote (MediaType desc))) m in
  write (out_StartURI uri "" (Size desc) false) m.

(** the [201 URI Done] message of a successful [acquire] *)
Definition doneMessage (msg : Message) (desc : Descriptor) (encoded : string) : OutMsg :=
  out_FinishURI (index (Fields msg) FieldURI) (index (Fields msg) FieldFilename)
    "" "" false false
    [mkField FieldSize (fmt_d_Z (Size desc)); mkField FieldSHA256Hash encoded].

(** the messages [handleURIAcquire] adds after a failed [acquire] *)
Definition failureReport (msg : Message) (started : bool) (err : error) : list OutMsg :=
  let uri := index (Fields msg) FieldURI in
  (if started then [] else [out_StartURI uri "" 0 false])
  ++ [out_FailedURI uri (Error err) (Error err) false false].

(** One turn of the loop of [Run]: the method afterwards, and whether the
    loop goes on. *)
Inductive Turn : Type :=
| Continue (m : Method)
| Stop (m : Method).

Definition setReader (r : MessageReader) (m : Method) : Method :=
  mkMethod (Method_w m) r (Method_cacheByOCIRef m).

(** the [switch msg.StatusCode] at the end of the loop body *)
Definition dispatchMessage `{GoLib} (W : World) (msg : option Message) (m : Method)
  : Res Turn :=
  match msg with
  | None => Panics "invalid memory address or nil pointer dereference"
  | Some msg =>
      if (StatusCode msg =? CodeURIAcquire)%N then
        m ← handleURIAcquire W msg m;
        Returns (Continue m)
      else
        Returns (Continue
          (write (out_Log ("Unknown message: " +:+ fmt_d_N (StatusCode msg)
                           +:+ " " +:+ Description msg)) m))
  end.

Definition Run_turn `{GoLib} (fuel : nat) (W : World) (m : Method) : Res Turn :=
  match ReadMessage fuel (Method_r m) with
  | None => OutOfFuel
  | Some ((msg, err), r) =>
      let m := setReader r m in
      match err with
      | Some err =>
          if errors_Is err sEOF || errors_Is err sErrClosedPipe then
            Returns (Stop m)
          else if errors_Is err sErrNoProgress || errors_Is err sErrShortBuffer then
            dispatchMessage W msg m
          else
            Returns (Stop
              (write (out_GeneralFailure ("Error reading message: " +:+ Error err)) m))
      | None => dispatchMessage W msg m
      end
  end.

(** the loop [for { ... }] of [Run]; [fuel] bounds the number of turns and
    the number of lines each turn reads. *)
Fixpoint Run_loop `{GoLib} (fuel : nat) (W : World) (m : Method) : Res Method :=
  match fuel with
  | O => OutOfFuel
  | S fuel' =>
      t ← Run_turn fuel W m;
      match t with
      | Stop m => Returns m
      | Continue m => Run_loop fuel' W m
      end
  end.

(** [m.Run(ctx)] *)
Definition Run `{GoLib} (fuel : nat) (W : World) (m : Method) : Res Method :=
  let version := fmt_d_N version_Major +:+ "." +:+ fmt_d_N version_Minor in
  let caps := 0%N in
  Run_loop fuel W (write (out_Capabilities version caps) m).

(** every entry of the cache of [m] is still there, unchanged, in [m'] *)
Definition keeps (m m' : Method) : Prop :=
  ∀ k x, Method_cacheByOCIRef m !! k = Some x → Method_cacheByOCIRef m' !! k = Some x.

Definition turnMethod (t : Turn) : Method :=
  match t with Continue m => m | Stop m => m end.

(* ===================================================================== *)
(** ** A small registry to run the model on *)
(* ===================================================================== *)

Module Sample.

(** Stand-ins for the library functions on the inputs used below:
    white space and quoting for ASCII text, lexical path cleaning, a
    reference parser that takes any non-empty text, documents whose body
    names their content, and the two SHA-256 values needed. *)

Definition asciiSpace (c : ascii) : bool :=
  existsb (N.eqb (N_of_ascii c)) [9; 10; 11; 12; 13; 32]%N.

Fixpoint trimLeft (s : string) : string :=
  match s with
  | EmptyString => EmptyString
  | String c s' => if asciiSpace c then trimLeft s' else s
  end.

Definition TrimSpace (s : string) : string :=
  String.rev (trimLeft (String.rev (trimLeft s))).

Definition Quote (s : string) : string := dq +:+ s +:+ dq.

Fixpoint elements (s : string) : list string :=
  match s with
  | EmptyString => [EmptyString]
  | String c s' =>
      if Ascii.eqb c slash then EmptyString :: elements s'
      else match elements s' with
           | e :: es => String c e :: es
           | [] => [String c EmptyString]
           end
  end.

Definition Clean (p : string) : string :=
  let rooted := HasPrefix p "/" in
  let step (kept : list string) (e : string) : list string :=
    if String.eqb e "" || String.eqb e "." then kept
    else if String.eqb e ".." then
      match kept with
      | top :: below => if String.eqb top ".." then e :: kept else below
      | [] => if rooted then [] else [e]
      end
    else e :: kept in
  let kept := rev (fold_left step (elements p) []) in
  let body := String.concat "/" kept in
  let out := if rooted then "/" +:+ body else body in
  if String.eqb out "" then "." else out.

Definition Domain (ref : string) : string :=
  match cut slash ref with
  | Some (d, _) => d
  | None => ref
  end.

Definition ParseDockerRef (s : string) : error + string :=
  if String.eqb s "" then inl (errorString "invalid reference format") else inr s.

Definition hello_sha256 : string :=
  "2cf24dba5fb0a30e26e83b2ac5b9e29e1b161e5c1fa7425e73043362938b9824".
Definition empty_sha256 : string :=
  "e3b0c44298fc1c149afbf4c8996fb92427ae41e4649b934ca495991b7852b855".

Definition sha256 (content : string) : string :=
  if String.eqb content "hello" then hello_sha256 else empty_sha256.

Definition titled (t : string) : gmap string string := <[AnnotationTitle := t]> ∅.

Definition blob (mediaType digest : string) (size : Z) (title : string) : Descriptor :=
  mkDescriptor mediaType digest size (titled title).

(** the layers of two manifests that both carry a file [Packages] *)
Definition packagesA : Descriptor :=
  blob MediaTypeApplicationOctetStream ("sha256:" +:+ hello_sha256) 5 "./Packages".
Definition packagesB : Descriptor :=
  blob MediaTypeApplicationOctetStream ("sha256:" +:+ empty_sha256) 5 "Packages".
Definition pkgDeb : Descriptor :=
  blob MediaTypeApplicationXBinary ("sha256:" +:+ hello_sha256) 5 "pool/pkg.deb".
Definition md5Deb : Descriptor :=
  blob MediaTypeApplicationXBinary "md5:5d41402abc4b2a76b9719d911017c592" 5 "pool/md5.deb".
Definition textFile : Descriptor :=
  blob "text/plain" ("sha256:" +:+ hello_sha256) 5 "README".
Definition config : Descriptor :=
  mkDescriptor "application/vnd.oci.image.config.v1+json" "sha256:c0" 2 ∅.

Definition manifestA : Descriptor :=
  mkDescriptor MediaTypeImageManifest "sha256:a0" 100 ∅.
Definition manifestB : Descriptor :=
  mkDescriptor MediaTypeDockerSchema2Manifest "sha256:b0" 100 ∅.
Definition rootIndex : Descriptor :=
  mkDescriptor MediaTypeImageIndex "sha256:ff" 200 ∅.

Definition UnmarshalManifest (body : string) : error + list Descriptor :=
  if String.eqb body "manifest A" then inr [packagesA; pkgDeb; config]
  else if String.eqb body "manifest B" then inr [md5Deb; packagesB; textFile]
  else inl (errorString "unexpected end of JSON input").

Definition UnmarshalIndex (body : string) : error + list Descriptor :=
  if String.eqb body "index" then inr [manifestA; manifestB; config]
  else inl (errorString "unexpected end of JSON input").

#[export] Instance lib : GoLib := {|
  strconv_Quote := Quote;
  strings_TrimSpace := TrimSpace;
  path_Clean := Clean;
  fmt_v_Message := Description;
  fmt_v_Descriptor := Digest;
  Named := string;
  Named_String := fun s => s;
  refdocker_Domain := Domain;
  refdocker_ParseDockerRef := ParseDockerRef;
  json_Unmarshal_Manifest := UnmarshalManifest;
  json_Unmarshal_Index := UnmarshalIndex;
  sha256_hex := sha256;
  version_Major := 0;
  version_Minor := 1
|}.

Definition stream (content : string) : error + ReadCloser :=
  inr (mkReadCloser content None None).

(** The registry: every blob is the five bytes [hello], so [packagesA] and
    [pkgDeb] declare the right digest, [packagesB] a wrong one, and
    [md5Deb] one of another algorithm. *)
Definition registry : Fetcher :=
  mkFetcher (fun desc =>
    if String.eqb (Digest desc) "sha256:ff" then stream "index"
    else if String.eqb (Digest desc) "sha256:a0" then stream "manifest A"
    else if String.eqb (Digest desc) "sha256:b0" then stream "manifest B"
    else if String.eqb (Digest desc) "sha256:c0" then
      inl (errorString "not found")
    else stream "hello").

Definition resolver : Resolver :=
  mkResolver
    (fun ref =>
       if String.eqb ref "reg.example/repo:latest"
       then inr ("reg.example/repo:latest", rootIndex)
       else inl (errorString "not found"))
    (fun _ => inr registry).

Definition disk (filename : string) : error + File :=
  if String.eqb filename "" then inl (errorString "open : no such file or directory")
  else inr (mkFile None None).

(** the goroutines run one after the other: root, manifest A, manifest B,
    config *)
Definition world : World :=
  mkWorld (fun _ => inr resolver) disk (repeat (ev_step 0) 16).
(** the goroutines run one after the other: root, manifest B, manifest A,
    config *)
Definition world' : World :=
  mkWorld (fun _ => inr resolver) disk
    (ev_step 0 :: repeat (ev_step 1) 5 ++ repeat (ev_step 0) 10).

Definition request (uri filename : string) : Message :=
  mkMessage 600 "URI Acquire"
    (<[FieldURI := uri]> (<[FieldFilename := filename]> ∅)).

Definition input (bytes : string) (err : error) : Method := New (mkBufio bytes err).

Definition nl : string := String LF EmptyString.

End Sample.

(* ===================================================================== *)
(** ** The bytes of the writer's messages ([apt/message.go]) *)
(* ===================================================================== *)

Definition nl : string := String LF EmptyString.

(** the bytes of a sequence of writes to the stream *)
Fixpoint writes (chunks : list string) : string :=
  match chunks with
  | [] => EmptyString
  | c :: chunks' => c +:+ writes chunks'
  end.

(** a write that happens under a condition *)
Definition when (b : bool) (chunk : string) : list string :=
  if b then [chunk] else [].

(** [fmt.Fprintf(mw.w, "%s: %s\n", k, v)] *)
Definition fieldLine (k v : string) : string := k +:+ ": " +:+ v +:+ nl.

(** [CapFlags] *)
Definition CapSingleInstance : Z := 1.
Definition CapPipeline : Z := 2.
Definition CapSendConfig : Z := 4.
Definition CapLocalOnly : Z := 8.
Definition CapNeedsCleanup : Z := 16.
Definition CapRemovable : Z := 32.
Definition CapAuxRequests : Z := 64.

(** [caps&flag != 0] *)
Definition hasCap (caps flag : Z) : bool := negb (Z.land caps flag =? 0)%Z.

(** the element at position [i] (counted modulo the length) and the others *)
Definition pick {A : Type} (i : nat) (l : list A) : option (A * list A) :=
  let j := (i mod length l)%nat in
  match l !! j with
  | Some x => Some (x, take j l ++ drop (S j) l)
  | None => None
  end.

(** [n] elements of [l], each taken once: [picks] says which of those left
    comes next *)
Fixpoint taken {A : Type} (n : nat) (picks : list nat) (l : list A) : list A :=
  match n with
  | O => []
  | S n' =>
      match pick (hd 0%nat picks) l with
      | Some (x, others) => x :: taken n' (tl picks) others
      | None => []
      end
  end.

(** Go's [for k, v := range fields]: every entry of the map once, in an
    order that the language leaves open and that [picks] decides. *)
Definition mapRange (picks : list nat) (fields : gmap string string)
  : list (string * string) :=
  taken (length (map_to_list fields)) picks (map_to_list fields).

(** [mw.WriteMessage(msg)]; [picks] is for the order in which Go ranges over
    the fields. *)
Definition WriteMessage_bytes (msg : Message) (picks : list nat) : string :=
  writes ([fmt_d_N (StatusCode msg) +:+ " " +:+ Description msg +:+ nl]
          ++ flat_map (λ '(k, v),
                         when (negb (String.eqb k "") && negb (String.eqb v ""))
                              (fieldLine k v)) (mapRange picks (Fields msg))
          ++ [nl]).

(** [mw.Capabilities(version, caps)] *)
Definition Capabilities_bytes (version : string) (caps : Z) : string :=
  writes (["100 Capabilities" +:+ nl +:+ "Version: " +:+ version +:+ nl]
          ++ when (hasCap caps CapSendConfig) ("Send-Config: true" +:+ nl)
          ++ when (hasCap caps CapPipeline) ("Pipeline: true" +:+ nl)
          ++ when (hasCap caps CapSingleInstance) ("Single-Instance: true" +:+ nl)
          ++ when (hasCap caps CapLocalOnly) ("Local-Only: true" +:+ nl)
          ++ when (hasCap caps CapNeedsCleanup) ("Needs-Cleanup: true" +:+ nl)
          ++ when (hasCap caps CapRemovable) ("Removable: true" +:+ nl)
          ++ when (hasCap caps CapAuxRequests) ("AuxRequests: true" +:+ nl)
          ++ [nl]).

(** [mw.Log(msg)] *)
Definition Log_bytes (msg : string) : string :=
  writes ["101 Log" +:+ nl +:+ "Message: " +:+ msg +:+ nl +:+ nl].

(** [mw.Status(msg)] *)
Definition Status_bytes (msg : string) : string :=
  writes ["102 Status" +:+ nl +:+ "Message: " +:+ msg +:+ nl +:+ nl].

(** [mw.Redirect(uri, newURI, altURIs, usedMirror)] *)
Definition Redirect_bytes (uri newURI altURIs : string) (usedMirror : bool) : string :=
  writes (["103 Redirect" +:+ nl +:+ "URI: " +:+ uri +:+ nl
           +:+ "New-URI: " +:+ newURI +:+ nl]
          ++ when usedMirror ("UsedMirror: true" +:+ nl)
          ++ when (negb (String.eqb altURIs "")) ("Alt-URIs: " +:+ altURIs +:+ nl)
          ++ [nl]).

(** [mw.Warning(msg)] *)
Definition Warning_bytes (msg : string) : string :=
  writes ["104 Warning" +:+ nl +:+ "Message: " +:+ msg +:+ nl +:+ nl].

(** [mw.StartURI(uri, resumePoint, size, usedMirror)] *)
Definition StartURI_bytes (uri resumePoint : string) (size : Z) (usedMirror : bool)
  : string :=
  writes (["200 URI Start" +:+ nl +:+ "URI: " +:+ uri +:+ nl]
          ++ when (negb (String.eqb resumePoint ""))
                  ("Resume-Point: " +:+ resumePoint +:+ nl)
          ++ when (0 <? size)%Z ("Size: " +:+ fmt_d_Z size +:+ nl)
          ++ when usedMirror ("UsedMirror: true" +:+ nl)
          ++ [nl]).

(** [mw.FinishURI(uri, filename, resumePoint, altIMSHit, imsHit, usedMirror,
    extra...)] *)
Definition FinishURI_bytes (uri filename resumePoint altIMSHit : string)
    (imsHit usedMirror : bool) (extra : list Field) : string :=
  writes (["201 URI Done" +:+ nl +:+ "URI: " +:+ uri +:+ nl
           +:+ "Filename: " +:+ filename +:+ nl]
          ++ when (negb (String.eqb resumePoint ""))
                  ("Resume-Point: " +:+ resumePoint +:+ nl)
          ++ when imsHit ("IMS-Hit: true" +:+ nl)
          ++ when (negb (String.eqb altIMSHit "")) ("Alt-IMS-Hit: " +:+ altIMSHit +:+ nl)
          ++ when usedMirror ("UsedMirror: true" +:+ nl)
          ++ map (λ s, fieldLine (Key s) (Value s)) extra
          ++ [nl]).

(** [mw.AuxRequest(uri, auxURI, descShort, descLong, maximumSize,
    usedMirror)] *)
Definition AuxRequest_bytes (uri auxURI descShort descLong : string)
    (maximumSize : N) (usedMirror : bool) : string :=
  writes (["351 Aux Request" +:+ nl +:+ "URI: " +:+ uri +:+ nl]
          ++ when (negb (String.eqb auxURI "")) ("Aux-URI: " +:+ auxURI +:+ nl)
          ++ when (0 <? maximumSize)%N ("MaximumSize: " +:+ fmt_d_N maximumSize +:+ nl)
          ++ when (negb (String.eqb descShort "")) ("Aux-ShortDesc: " +:+ descShort +:+ nl)
          ++ when (negb (String.eqb descLong "")) ("Aux-Description: " +:+ descLong +:+ nl)
          ++ when usedMirror ("UsedMirror: true" +:+ nl)
          ++ [nl]).

(** [mw.FailedURI(uri, message, failReason, transientError, usedMirror)] *)
Definition FailedURI_bytes (uri message failReason : string)
    (transientError usedMirror : bool) : string :=
  if String.eqb uri "" then
    writes ["400 URI Failure" +:+ nl; "Message: " +:+ message +:+ nl +:+ nl]
  else
    writes (["400 URI Failure" +:+ nl; "URI: " +:+ uri +:+ nl]
            ++ (if transientError then ["Transient-Failure: true" +:+ nl]
                else ["FailReason: " +:+ failReason +:+ nl])
            ++ when usedMirror ("UsedMirror: true" +:+ nl)
            ++ [nl]).

(** [mw.GeneralFailure(msg)] *)
Definition GeneralFailure_bytes (msg : string) : string :=
  writes ["401 General Failure" +:+ nl +:+ "Message: " +:+ msg +:+ nl +:+ nl].

(** [mw.MediaChange(media, drive)] *)
Definition MediaChange_bytes (media drive : string) : string :=
  writes ["403 Media Change" +:+ nl +:+ "Media: " +:+ media +:+ nl
          +:+ "Drive: " +:+ drive +:+ nl +:+ nl].


(** A frame of the protocol: a header line, one line [key: value] per field,
    and an empty line. *)
Definition frame (head : string) (fields : list (string * string)) : string :=
  writes ([head +:+ nl] ++ map (λ '(k, v), fieldLine k v) fields ++ [nl]).

(** a field that is there under a condition *)
Definition opt (b : bool) (k v : string) : list (string * string) :=
  if b then [(k, v)] else [].

(** [NewMessage(statusCode, description, fields...)] *)
Definition NewMessage (statusCode : N) (description : string) (fields : list Field)
  : Message :=
  mkMessage statusCode description
    (fold_left (λ fieldmap field, <[Key field := Value field]> fieldmap) fields ∅).

(** the map that inserting [fields] one after the other gives *)
Definition fieldMap (fields : list (string * string)) : gmap string string :=
  fold_left (λ m '(k, v), <[k := v]> m) fields ∅.

(* ===================================================================== *)
(** ** [strings.TrimSpace] on ASCII text *)
(* ===================================================================== *)

(** Go's table [asciiSpace]: tab, line feed, vertical tab, form feed,
    carriage return and space. *)
Definition asciiSpace (c : ascii) : bool :=
  existsb (N.eqb (N_of_ascii c)) [9; 10; 11; 12; 13; 32]%N.

Fixpoint isASCII (s : string) : bool :=
  match s with
  | EmptyString => true
  | String c s' => (N_of_ascii c <? 128)%N && isASCII s'
  end.

Fixpoint trimLeft (s : string) : string :=
  match s with
  | EmptyString => EmptyString
  | String c s' => if asciiSpace c then trimLeft s' else s
  end.

Fixpoint trimRight (s : string) : string :=
  match s with
  | EmptyString => EmptyString
  | String c s' =>
      match trimRight s' with
      | EmptyString => if asciiSpace c then EmptyString else String c EmptyString
      | t => String c t
      end
  end.

(** what [strings.TrimSpace] returns for a string of ASCII bytes: the string
    without the white space at its two ends *)
Definition asciiTrim (s : string) : string := trimRight (trimLeft s).

(** [strings.TrimSpace] of the library does that on ASCII text *)
Definition TrimSpaceOnASCII `{GoLib} : Prop :=
  ∀ s, isASCII s = true → strings_TrimSpace s = asciiTrim s.

(** no white space at the start, and none at the end *)
Definition headOK (s : string) : bool :=
  match s with
  | EmptyString => true
  | String c _ => negb (asciiSpace c)
  end.

Fixpoint lastOK (s : string) : bool :=
  match s with
  | EmptyString => true
  | String c EmptyString => negb (asciiSpace c)
  | String _ s' => lastOK s'
  end.

(** Text that a frame carries unchanged: ASCII bytes, no line feed, no white
    space at either end. *)
Definition plainText (s : string) : Prop :=
  isASCII s = true ∧ occurs LF s = false ∧ headOK s = true ∧ lastOK s = true.

(** a field name: plain text without a colon *)
Definition plainKey (s : string) : Prop :=
  plainText s ∧ occurs colon s = false.

(** a field that a frame carries unchanged *)
Definition fieldOK (kv : string * string) : Prop :=
  plainKey kv.1 ∧ plainText kv.2.

(** Reading [bytes], whatever follows them, gives the message [msg] and
    leaves the reader before what follows, once the bound on the number of
    lines is large enough. *)
Definition readsBack `{GoLib} (bytes : string) (msg : Message) : Prop :=
  ∃ lines, ∀ (rest : string) (e : error) (fuel : nat),
    (lines ≤ fuel)%nat →
    ReadMessage fuel (NewMessageReader (mkBufio (bytes +:+ rest) e))
    = Some ((Some msg, None), mkReader (mkBufio rest e) None).

(** the fields that [WriteMessage] writes: those with a key and a value *)
Definition written : string * string → bool :=
  λ '(k, v), negb (String.eqb k "") && negb (String.eqb v "").

(* ===================================================================== *)
(** ** Notions used to state further properties *)
(* ===================================================================== *)






Definition isDigit (c : ascii) : bool :=
  (48 <=? N_of_ascii c)%N && (N_of_ascii c <=? 57)%N.

Fixpoint isDigits (s : string) : bool :=
  match s with
  | EmptyString => true
  | String c s' => isDigit c && isDigits s'
  end.

(** the number that the decimal digits of [s] write, after the number [n]
    that the digits before them write *)
Fixpoint decimalValue (s : string) (n : N) : N :=
  match s with
  | EmptyString => n
  | String c s' => decimalValue s' (n * 10 + (N_of_ascii c - 48))%N
  end.

Module AsciiSample.

(** [Sample.lib] with [strings.TrimSpace] as it is on ASCII text *)
#[export] Instance lib : GoLib := {|
  strconv_Quote := Sample.Quote;
  strings_TrimSpace := asciiTrim;
  path_Clean := Sample.Clean;
  fmt_v_Message := Description;
  fmt_v_Descriptor := Digest;
  Named := string;
  Named_String := fun s => s;
  refdocker_Domain := Sample.Domain;
  refdocker_ParseDockerRef := Sample.ParseDockerRef;
  json_Unmarshal_Manifest := Sample.UnmarshalManifest;
  json_Unmarshal_Index := Sample.UnmarshalIndex;
  sha256_hex := Sample.sha256;
  version_Major := 0;
  version_Minor := 1
|}.

End AsciiSample.

(* ===================================================================== *)
(** * Properties *)
(* ===================================================================== *)

(** ** Byte strings *)

Section string_facts.
Implicit Types (s p a b : string) (c d : ascii).

Lemma append_cons c s a : String c s +:+ a = String c (s +:+ a).
Proof. reflexivity. Qed.

Lemma append_nil_l s : "" +:+ s = s.
Proof. reflexivity. Qed.

Lemma append_assoc s a b : (s +:+ a) +:+ b = s +:+ (a +:+ b).
Proof.
  induction s as [|c s IH]; [done|]. rewrite !append_cons. by f_equal.
Qed.

Lemma append_nil_r s : s +:+ "" = s.
Proof. induction s as [|c s IH]; [done|]. rewrite append_cons. by f_equal. Qed.

Lemma length_append s a :
  String.length (s +:+ a) = (String.length s + String.length a)%nat.
Proof.
  induction s as [|c s IH]; [done|]. rewrite append_cons. simpl. by f_equal.
Qed.

Lemma HasPrefix_append p s : HasPrefix (p +:+ s) p = true.
Proof.
  induction p as [|c p IH]; [done|].
  rewrite append_cons. simpl. by rewrite Ascii.eqb_refl.
Qed.

Lemma from_append p s : from (String.length p) (p +:+ s) = s.
Proof.
  induction p as [|c p IH]; [by destruct s|]. by rewrite append_cons.
Qed.

Lemma HasPrefix_split s p :
  HasPrefix s p = true → s = p +:+ from (String.length p) s.
Proof.
  revert s. induction p as [|c p IH]; intros s Hp; simpl in *.
  - by destruct s.
  - destruct s as [|d s]; [done|].
    destruct (Ascii.eqb_spec d c) as [->|]; [|done].
    rewrite append_cons. f_equal. by apply IH.
Qed.

Lemma TrimPrefix_append p s : TrimPrefix (p +:+ s) p = s.
Proof. unfold TrimPrefix. by rewrite HasPrefix_append, from_append. Qed.

Lemma TrimPrefix_without s p : HasPrefix s p = false → TrimPrefix s p = s.
Proof. unfold TrimPrefix. by intros ->. Qed.

Lemma append_longer c p s : String c p +:+ s ≠ s.
Proof.
  intros Heq. apply (f_equal String.length) in Heq.
  rewrite length_append in Heq. simpl in Heq. lia.
Qed.

Lemma occurs_append c a b : occurs c (a +:+ b) = occurs c a || occurs c b.
Proof.
  induction a as [|d a IH]; [done|].
  rewrite append_cons. simpl. by destruct (Ascii.eqb d c).
Qed.

Lemma cut_None c s : cut c s = None ↔ occurs c s = false.
Proof.
  induction s as [|d s IH]; simpl; [done|].
  destruct (Ascii.eqb d c); [done|].
  destruct (cut c s) as [[a b]|]; [|tauto].
  split; [done|]. intros Ho. by apply IH in Ho.
Qed.

Lemma cut_Some c s a b :
  cut c s = Some (a, b) ↔ s = a +:+ String c b ∧ occurs c a = false.
Proof.
  revert a. induction s as [|d s IH]; intros a; simpl.
  - split; [done|]. intros [Hs _]. by destruct a.
  - destruct (Ascii.eqb_spec d c) as [->|Hdc].
    + split.
      * intros [= <- <-]. done.
      * intros [Hs Ho]. destruct a as [|e a]; simpl in *.
        -- by injection Hs as ->.
        -- injection Hs as <- _. by rewrite Ascii.eqb_refl in Ho.
    + destruct (cut c s) as [[a' b']|] eqn:Hc.
      * split.
        -- intros [= <- <-]. destruct (IH a') as [[-> Ho] _]; [done|].
           simpl. split; [done|]. by destruct (Ascii.eqb_spec d c).
        -- intros [Hs Ho]. destruct a as [|e a]; simpl in *.
           ++ injection Hs as -> _. done.
           ++ injection Hs as <- Hs. destruct (Ascii.eqb_spec d c); [done|].
              destruct (IH a) as [_ Hb]. specialize (Hb (conj Hs Ho)).
              by injection Hb as -> ->.
      * split; [done|]. intros [Hs Ho]. destruct a as [|e a]; simpl in *.
        -- by injection Hs as -> _.
        -- injection Hs as <- Hs. destruct (Ascii.eqb_spec d c); [done|].
           destruct (IH a) as [_ Hb]. by specialize (Hb (conj Hs Ho)).
Qed.

Lemma cut_append c a b : occurs c a = false → cut c (a +:+ String c b) = Some (a, b).
Proof. intros Ho. by apply cut_Some. Qed.

End string_facts.

(** ** [parseURI] *)

(** The three outcomes of [parseURI], by the shape of the input. *)
Lemma parseURI_unfold uri :
  parseURI uri =
    if HasPrefix uri "oci://" then
      match cut colon (from 6 uri) with
      | None => ("", "", Some (errorString "uri is missing repo tag"))
      | Some (host, rest) =>
          match cut slash rest with
          | None => ("oci://" +:+ host +:+ ":" +:+ rest +:+ "/", "", None)
          | Some (tag, path) => ("oci://" +:+ host +:+ ":" +:+ tag +:+ "/", path, None)
          end
      end
    else ("", "", Some (errorString "missing oci:// protocol in uri")).
Proof.
  unfold parseURI, TrimPrefix.
  destruct (HasPrefix uri "oci://") eqn:Hp.
  - apply HasPrefix_split in Hp. simpl String.length in *.
    destruct (String.eqb_spec (from 6 uri) uri) as [Heq|_].
    { rewrite Heq in Hp. symmetry in Hp. by apply append_longer in Hp. }
    unfold SplitN2.
    destruct (cut colon (from 6 uri)) as [[host rest]|]; [|done].
    cbn [length Nat.ltb Nat.leb nth].
    destruct (cut slash rest) as [[tag path]|]; cbn [length Nat.ltb Nat.leb nth].
    + f_equal. f_equal. by rewrite !append_assoc.
    + f_equal. f_equal. by rewrite !append_assoc.
  - by rewrite String.eqb_refl.
Qed.

Lemma parseURI_shape host tag path :
  occurs colon host = false →
  occurs slash tag = false →
  parseURI ("oci://" +:+ host +:+ ":" +:+ tag +:+ "/" +:+ path)
  = ("oci://" +:+ host +:+ ":" +:+ tag +:+ "/", path, None).
Proof.
  intros Hh Ht. rewrite parseURI_unfold.
  rewrite HasPrefix_append.
  change 6%nat with (String.length "oci://"). rewrite from_append.
  change (":" +:+ tag +:+ "/" +:+ path) with (String colon (tag +:+ "/" +:+ path)).
  rewrite cut_append by done.
  change ("/" +:+ path) with (String slash path).
  by rewrite cut_append.
Qed.

Lemma parseURI_shape_bare host tag :
  occurs colon host = false →
  occurs slash tag = false →
  parseURI ("oci://" +:+ host +:+ ":" +:+ tag)
  = ("oci://" +:+ host +:+ ":" +:+ tag +:+ "/", "", None).
Proof.
  intros Hh Ht. rewrite parseURI_unfold.
  rewrite HasPrefix_append.
  change 6%nat with (String.length "oci://"). rewrite from_append.
  change (":" +:+ tag) with (String colon tag).
  rewrite cut_append by done.
  apply cut_None in Ht. by rewrite Ht.
Qed.

(** Every reference [parseURI] hands out has the canonical shape. *)
Lemma parseURI_canonical uri repo path :
  parseURI uri = (repo, path, None) →
  ∃ host tag, repo = "oci://" +:+ host +:+ ":" +:+ tag +:+ "/"
              ∧ occurs colon host = false ∧ occurs slash tag = false.
Proof.
  rewrite parseURI_unfold.
  destruct (HasPrefix uri "oci://"); [|done].
  destruct (cut colon (from 6 uri)) as [[host rest]|] eqn:Hc; [|done].
  apply cut_Some in Hc as [_ Hh].
  destruct (cut slash rest) as [[tag p]|] eqn:Hs.
  - apply cut_Some in Hs as [_ Ht]. intros [= <- <-]. eauto.
  - apply cut_None in Hs. intros [= <- <-]. eauto.
Qed.

(** The table of [TestParseURI]: input, expected reference, expected path,
    and whether an error is expected. *)
Example TestParseURI :
  Forall (λ '(v, xRepo, xPath, err),
            let '(repo, path, e) := parseURI v in
            is_Some_b e = err ∧ repo = xRepo ∧ path = xPath)
    [ ("foo.bar", "", "", true);
      ("foo.bar/baz", "", "", true);
      ("foo.bar:latest", "", "", true);
      ("oci://foo.bar", "", "", true);
      ("oci://foo.bar/baz", "", "", true);
      ("oci://foo.bar:latest/", "oci://foo.bar:latest/", "", false);
      ("oci://foo.bar:latest/File", "oci://foo.bar:latest/", "File", false);
      ("oci://foo.bar:latest/Nested/File", "oci://foo.bar:latest/", "Nested/File", false);
      ("oci://foo.bar/namespace:latest/File", "oci://foo.bar/namespace:latest/",
       "File", false);
      ("oci://foo.bar/namespace:latest/Nested/File", "oci://foo.bar/namespace:latest/",
       "Nested/File", false) ].
Proof. repeat constructor. Qed.

(** C3.  For an input [oci://host:tag/path] whose host has no colon and whose
    tag has no slash, [parseURI] succeeds with the reference
    [oci://host:tag/] and with the text after the first slash that follows
    the tag as path; for [oci://host:tag] it gives the same reference and the
    empty path. *)
Theorem parseURI_host_tag_path (host tag path : string) :
  occurs colon host = false →
  occurs slash tag = false →
  parseURI ("oci://" +:+ host +:+ ":" +:+ tag +:+ "/" +:+ path)
    = ("oci://" +:+ host +:+ ":" +:+ tag +:+ "/", path, None)
  ∧ parseURI ("oci://" +:+ host +:+ ":" +:+ tag)
    = ("oci://" +:+ host +:+ ":" +:+ tag +:+ "/", "", None).
Proof.
  intros Hh Ht. split.
  - by apply parseURI_shape.
  - by apply parseURI_shape_bare.
Qed.

Lemma parseURI_host_tag_path_witness :
  parseURI "oci://ghcr.io/akihirosuda/hello:latest/dists/stable/Release"
    = ("oci://ghcr.io/akihirosuda/hello:latest/", "dists/stable/Release", None)
  ∧ parseURI "oci://ghcr.io/akihirosuda/hello:latest"
    = ("oci://ghcr.io/akihirosuda/hello:latest/", "", None).
Proof.
  apply (parseURI_host_tag_path "ghcr.io/akihirosuda/hello" "latest"
           "dists/stable/Release"); reflexivity.
Defined.

(** C4.  Round trip: a reference handed out by a successful [parseURI],
    followed by any relative path, parses to that same reference and that
    same path. *)
Theorem parseURI_roundtrip (uri canonical path relativePath : string) :
  parseURI uri = (canonical, path, None) →
  parseURI (canonical +:+ relativePath) = (canonical, relativePath, None).
Proof.
  intros Hparse.
  destruct (parseURI_canonical _ _ _ Hparse) as (host & tag & -> & Hh & Ht).
  rewrite <- (parseURI_shape host tag relativePath Hh Ht) at 1.
  f_equal. by rewrite !append_assoc.
Qed.

Lemma parseURI_roundtrip_witness :
  parseURI ("oci://reg.example:latest/" +:+ "pool/main/p/pkg.deb")
  = ("oci://reg.example:latest/", "pool/main/p/pkg.deb", None).
Proof.
  apply (parseURI_roundtrip "oci://reg.example:latest/pkg.deb" _ "pkg.deb").
  reflexivity.
Defined.

(** C5.  [parseURI] fails exactly when the input lacks the [oci://] prefix or
    has no colon after it; a failure comes with the empty reference and the
    empty path; an input made of a host and a path with no colon fails. *)
Theorem parseURI_failure (uri : string) :
  ((parseURI uri).2 ≠ None
    ↔ (HasPrefix uri "oci://" = false ∨ occurs colon (TrimPrefix uri "oci://") = false))
  ∧ ((parseURI uri).2 ≠ None → (parseURI uri).1 = ("", ""))
  ∧ (∀ host path : string,
        occurs colon host = false → occurs colon path = false →
        (parseURI ("oci://" +:+ host +:+ "/" +:+ path)).2 ≠ None).
Proof.
  assert (Hu := parseURI_unfold uri).
  split; [|split].
  - rewrite Hu. unfold TrimPrefix.
    destruct (HasPrefix uri "oci://") eqn:Hp; simpl String.length.
    + destruct (cut colon (from 6 uri)) as [[host rest]|] eqn:Hc.
      * assert (occurs colon (from 6 uri) = true) as ->.
        { destruct (occurs colon (from 6 uri)) eqn:Ho; [done|].
          apply cut_None in Ho. congruence. }
        destruct (cut slash rest) as [[tag p]|]; simpl;
          (split; [done | by intros [|]]).
      * apply cut_None in Hc. simpl. split; [by right | done].
    + simpl. split; [by left | done].
  - rewrite Hu.
    destruct (HasPrefix uri "oci://"); [|done].
    destruct (cut colon (from 6 uri)) as [[host rest]|]; [|done].
    by destruct (cut slash rest) as [[tag p]|].
  - intros host path Hh Hpath. rewrite parseURI_unfold.
    rewrite HasPrefix_append.
    change 6%nat with (String.length "oci://"). rewrite from_append.
    assert (cut colon (host +:+ "/" +:+ path) = None) as ->; [|done].
    apply cut_None. rewrite !occurs_append, Hh, Hpath. done.
Qed.

Lemma parseURI_failure_witness :
  (parseURI "reg.example:latest/pkg.deb").1 = ("", "")
  ∧ (parseURI "oci://reg.example/pool/pkg.deb").2 ≠ None.
Proof.
  split.
  - destruct (parseURI_failure "reg.example:latest/pkg.deb") as (_ & Hempty & _).
    apply Hempty. vm_compute. done.
  - destruct (parseURI_failure "") as (_ & _ & Hnotag).
    apply (Hnotag "reg.example" "pool/pkg.deb"); reflexivity.
Defined.

(** ** [parseURIFields] *)

(** C10.  With a [Target-Repo-URI] field that starts with [oci://] and parses
    as a reference, [parseURIFields] succeeds also when that field is not a
    prefix of the [URI] field; the title is then the whole [URI] field, less
    one leading [./]. *)
Theorem parseURIFields_foreign_repo `{GoLib} (msg : Message)
    (repoURI : string) (ociRef : Named) :
  Fields msg !! FieldTargetRepoURI = Some repoURI →
  HasPrefix repoURI "oci://" = true →
  refdocker_ParseDockerRef (TrimSuffix (TrimPrefix repoURI "oci://") "/") = inr ociRef →
  HasPrefix (index (Fields msg) FieldURI) repoURI = false →
  parseURIFields msg = inr (ociRef, TrimPrefix (index (Fields msg) FieldURI) "./").
Proof.
  intros Hfield Hscheme Hparse Hforeign.
  assert (index (Fields msg) FieldTargetRepoURI = repoURI) as Hrepo.
  { unfold index. by rewrite Hfield. }
  unfold parseURIFields. rewrite Hrepo.
  destruct (String.eqb_spec repoURI "") as [->|_]; [done|].
  rewrite Hscheme. simpl negb. cbv iota.
  rewrite Hparse.
  by rewrite (TrimPrefix_without _ repoURI Hforeign).
Qed.

Lemma parseURIFields_foreign_repo_witness :
  let msg :=
    mkMessage 600 "URI Acquire"
      (<[FieldTargetRepoURI := "oci://reg.example/repo:latest/"]>
         (<[FieldURI := "./oci://mirror.example/repo:1/Packages"]> ∅)) in
  parseURIFields (H := Sample.lib) msg
    = inr ("reg.example/repo:latest" : @Named Sample.lib,
           TrimPrefix (index (Fields msg) FieldURI) "./")
  ∧ TrimPrefix (index (Fields msg) FieldURI) "./"
    = "oci://mirror.example/repo:1/Packages".
Proof.
  intros msg. split; [|by vm_compute].
  apply (parseURIFields_foreign_repo (H := Sample.lib) msg
           "oci://reg.example/repo:latest/" "reg.example/repo:latest");
    by vm_compute.
Defined.

(** ** The message reader *)

(** One framed request, read by [ReadMessage] and taken apart by
    [parseURIFields]. *)
Example one_request_read :
  let bytes := "600 URI Acquire" +:+ Sample.nl
               +:+ "URI: oci://reg.example:latest/pkg.deb" +:+ Sample.nl
               +:+ "Filename: /tmp/pkg.deb" +:+ Sample.nl +:+ Sample.nl in
  ∃ msg r',
    ReadMessage (H := Sample.lib) 4 (NewMessageReader (mkBufio bytes io_EOF))
      = Some ((Some msg, None), r')
    ∧ StatusCode msg = CodeURIAcquire
    ∧ index (Fields msg) FieldURI = "oci://reg.example:latest/pkg.deb"
    ∧ index (Fields msg) FieldFilename = "/tmp/pkg.deb"
    ∧ parseURIFields (H := Sample.lib) msg
      = inr ("reg.example:latest" : @Named Sample.lib, "pkg.deb").
Proof.
  intros bytes. eexists _, _. split; [vm_compute; reflexivity|]. by vm_compute.
Qed.

(** C8.  While a message is in progress, a line that is not blank, has no
    colon and parses as a header makes [ReadLine] return the message read so
    far together with the error [new message started without old message
    ending], and leaves the parsed header as the message in progress. *)
Theorem ReadLine_new_header `{GoLib} (r : MessageReader) (cur h : Message)
    (line : string) (rd' : bufioReader) :
  message r = Some cur →
  ReadString (reader r) = ((line, None), rd') →
  strings_TrimSpace line ≠ "" →
  occurs colon (strings_TrimSpace line) = false →
  ParseHeader (strings_TrimSpace line) = (Some h, None) →
  ReadLine r = ((Some cur, Some errNewMessageStarted), mkReader rd' (Some h))
  ∧ Error errNewMessageStarted = "new message started without old message ending".
Proof.
  intros Hcur Hread Hblank Hcolon Hheader. split; [|done].
  unfold ReadLine. rewrite Hcur, Hread.
  destruct (String.eqb_spec (strings_TrimSpace line) "") as [|_]; [done|].
  unfold SplitN2. apply cut_None in Hcolon. rewrite Hcolon. simpl.
  by rewrite Hheader.
Qed.

Lemma ReadLine_new_header_witness :
  let cur := mkMessage 600 "URI Acquire" (<[FieldURI := "oci://reg.example:1/a"]> ∅) in
  let rest := mkBufio ("Filename: /tmp/a" +:+ Sample.nl) io_EOF in
  ReadLine (H := Sample.lib)
           (mkReader (mkBufio ("601 Configuration" +:+ Sample.nl
                               +:+ "Filename: /tmp/a" +:+ Sample.nl) io_EOF)
                     (Some cur))
  = ((Some cur, Some errNewMessageStarted),
     mkReader rest (Some (mkMessage 601 "Configuration" ∅)))
  ∧ Error errNewMessageStarted = "new message started without old message ending".
Proof.
  intros cur rest.
  apply (ReadLine_new_header (H := Sample.lib) _ cur
           (mkMessage 601 "Configuration" ∅) ("601 Configuration" +:+ Sample.nl) rest);
    by vm_compute.
Defined.

(** ** The reference cache *)

Ltac unfold_bind := unfold mbind, Res_bind in *.

Section cache_facts.
Context `{GoLib}.
Implicit Types (W : World) (m : Method) (ociRef : Named).

Lemma write_w o m : Method_w (write o m) = Method_w m ++ [o].
Proof. done. Qed.

Lemma write_cache o m : Method_cacheByOCIRef (write o m) = Method_cacheByOCIRef m.
Proof. done. Qed.

Lemma write_r o m : Method_r (write o m) = Method_r m.
Proof. done. Qed.

(** A hit hands out the stored entry and changes nothing; the world is not
    consulted. *)
Lemma doCacheStuff_hit W uri ociRef m x :
  Method_cacheByOCIRef m !! Named_String ociRef = Some x →
  doCacheStuff W uri ociRef m = Returns (inr x, m).
Proof. intros Hhit. unfold doCacheStuff. by rewrite Hhit. Qed.

(** What a call may do to the method: write status messages, and add the
    entry it built under the key of its reference when that key was free. *)
Lemma doCacheStuff_effect W uri ociRef m res m' :
  doCacheStuff W uri ociRef m = Returns (res, m') →
  (∃ out, Method_w m' = Method_w m ++ out ∧ forallb is_WriteMessage out = true)
  ∧ Method_r m' = Method_r m
  ∧ (Method_cacheByOCIRef m' = Method_cacheByOCIRef m
     ∨ ∃ c, res = inr c
            ∧ Method_cacheByOCIRef m !! Named_String ociRef = None
            ∧ Method_cacheByOCIRef m'
              = <[Named_String ociRef := c]> (Method_cacheByOCIRef m)).
Proof.
  unfold doCacheStuff.
  destruct (Method_cacheByOCIRef m !! Named_String ociRef) as [x|] eqn:Hlook.
  { intros [= <- <-]. split; [|by auto]. exists []. by rewrite app_nil_r. }
  destruct (ociResolver W ociRef) as [err|resolver].
  { intros [= <- <-]. split; [|by auto]. by eexists [_]. }
  destruct (ociFetcher ociRef resolver) as [err|[fetcher0 rootDesc]].
  { intros [= <- <-]. split; [|by auto]. eexists [_; _]. simpl.
    by rewrite <- app_assoc. }
  unfold_bind.
  destruct (buildFileMap _ _ _) as [[err|files]| |]; [| |done..].
  - intros [= <- <-]. split; [|by auto]. eexists [_; _; _]. simpl.
    by rewrite <- !app_assoc.
  - intros [= <- <-]. split; [|split; [done|]].
    + eexists [_; _; _]. simpl. by rewrite <- !app_assoc.
    + right. eauto.
Qed.

Lemma doCacheStuff_returns_entry W uri ociRef m c m' :
  doCacheStuff W uri ociRef m = Returns (inr c, m') →
  Method_cacheByOCIRef m' !! Named_String ociRef = Some c.
Proof.
  intros Hdo.
  destruct (Method_cacheByOCIRef m !! Named_String ociRef) as [x|] eqn:Hlook.
  - rewrite (doCacheStuff_hit _ _ _ _ _ Hlook) in Hdo. by injection Hdo as <- <-.
  - destruct (doCacheStuff_effect _ _ _ _ _ _ Hdo) as (_ & _ & [Hsame|Hnew]).
    + revert Hdo. unfold doCacheStuff. rewrite Hlook.
      destruct (ociResolver W ociRef) as [err|resolver]; [done|].
      destruct (ociFetcher ociRef resolver) as [err|[fetcher0 rootDesc]]; [done|].
      unfold_bind.
      destruct (buildFileMap _ _ _) as [[err|files]| |]; [done| |done..].
      intros [= <- <-]. simpl. by rewrite lookup_insert_eq.
    + destruct Hnew as (c' & [= <-] & _ & ->). by rewrite lookup_insert_eq.
Qed.

Lemma doCacheStuff_keeps W uri ociRef m res m' k x :
  doCacheStuff W uri ociRef m = Returns (res, m') →
  Method_cacheByOCIRef m !! k = Some x →
  Method_cacheByOCIRef m' !! k = Some x.
Proof.
  intros Hdo Hk.
  destruct (doCacheStuff_effect _ _ _ _ _ _ Hdo) as (_ & _ & [->|Hnew]); [done|].
  destruct Hnew as (c & _ & Hfree & ->).
  rewrite lookup_insert_ne; [done|]. intros <-. congruence.
Qed.

Lemma doCacheStuff_other_keys W uri ociRef m res m' k :
  doCacheStuff W uri ociRef m = Returns (res, m') →
  k ≠ Named_String ociRef →
  Method_cacheByOCIRef m' !! k = Method_cacheByOCIRef m !! k.
Proof.
  intros Hdo Hk.
  destruct (doCacheStuff_effect _ _ _ _ _ _ Hdo) as (_ & _ & [->|Hnew]); [done|].
  destruct Hnew as (c & _ & _ & ->). by rewrite lookup_insert_ne.
Qed.

Lemma only_status out :
  forallb is_WriteMessage out = true →
  existsb is_StartURI out = false ∧ existsb is_GeneralFailure out = false.
Proof.
  induction out as [|o out IH]; [done|]. simpl.
  intros [Ho Hout]%andb_prop. destruct (IH Hout) as [-> ->].
  by destruct o.
Qed.

End cache_facts.

(** ** [acquire] and [handleURIAcquire] *)

Section acquire_facts.
Context `{GoLib}.
Implicit Types (W : World) (m : Method) (msg : Message).

(** What [acquire] does to the method: it writes messages, never a general
    failure; the flag it returns says whether a [200 URI Start] is among
    them, and is set on success; the reader is left alone and no cache
    entry is lost. *)
Lemma acquire_effect W msg m started err m' :
  acquire W msg m = Returns ((started, err), m') →
  (∃ out, Method_w m' = Method_w m ++ out
          ∧ started = existsb is_StartURI out
          ∧ existsb is_GeneralFailure out = false)
  ∧ (err = None → started = true)
  ∧ Method_r m' = Method_r m
  ∧ (∀ k x, Method_cacheByOCIRef m !! k = Some x →
            Method_cacheByOCIRef m' !! k = Some x).
Proof.
  unfold acquire.
  destruct (parseURIFields msg) as [e|[ociRef title]].
  { intros [= <- <- <-]. split; [|done]. by eexists [_]. }
  unfold_bind.
  destruct (doCacheStuff _ _ _ _) as [[cres mid]| |] eqn:Hdo; [|done..].
  destruct (doCacheStuff_effect _ _ _ _ _ _ Hdo) as ((out1 & Hw & Hst) & Hr & _).
  destruct (only_status _ Hst) as [Hs1 Hg1].
  assert (Hkeep := λ k x, doCacheStuff_keeps _ _ _ _ _ _ k x Hdo).
  unfold Status in Hw, Hr, Hkeep. rewrite write_w in Hw. simpl in Hr, Hkeep.
  assert (∀ (b : bool) (e : option error) (tl : list OutMsg) (mfin : Method),
            Method_w mfin = Method_w mid ++ tl →
            Method_r mfin = Method_r mid →
            Method_cacheByOCIRef mfin = Method_cacheByOCIRef mid →
            existsb is_StartURI tl = b →
            existsb is_GeneralFailure tl = false →
            (e = None → b = true) →
            (∃ out, Method_w mfin = Method_w m ++ out
                    ∧ b = existsb is_StartURI out
                    ∧ existsb is_GeneralFailure out = false)
            ∧ (e = None → b = true)
            ∧ Method_r mfin = Method_r m
            ∧ (∀ k x, Method_cacheByOCIRef m !! k = Some x →
                      Method_cacheByOCIRef mfin !! k = Some x)) as Hfin.
  { intros b e tl mfin Hwf Hrf Hcf Hsf Hgf Hok. split; [|split; [done|split]].
    - eexists. split; [rewrite Hwf, Hw, <- !app_assoc; reflexivity|].
      simpl. rewrite !existsb_app, Hs1, Hg1, Hsf, Hgf. done.
    - congruence.
    - intros k x Hk. rewrite Hcf. by apply Hkeep. }
  destruct cres as [e|c].
  { intros [= <- <- <-]. apply (Hfin _ _ []); by rewrite ?app_nil_r. }
  destruct (fileMap c !! title) as [desc|].
  2:{ intros [= <- <- <-]. apply (Hfin _ _ []); by rewrite ?app_nil_r. }
  set (warn := if String.eqb (MediaType desc) MediaTypeApplicationOctetStream
                  || String.eqb (MediaType desc) MediaTypeApplicationXBinary
               then _ else _).
  assert (∃ pre, Method_w warn = Method_w mid ++ pre
                 ∧ Method_r warn = Method_r mid
                 ∧ Method_cacheByOCIRef warn = Method_cacheByOCIRef mid
                 ∧ existsb is_StartURI pre = false
                 ∧ existsb is_GeneralFailure pre = false)
    as (pre & Hwp & Hrp & Hcp & Hsp & Hgp).
  { subst warn. destruct (_ || _).
    - by eexists [_].
    - eexists [_; _]. simpl. by rewrite <- app_assoc. }
  clearbody warn.
  assert (∀ e : option error, (∃ out, Method_w (write (out_StartURI (index (Fields msg) FieldURI) ""
                                          (Size desc) false) warn)
                       = Method_w m ++ out
                       ∧ true = existsb is_StartURI out
                       ∧ existsb is_GeneralFailure out = false)
               ∧ (e = None → true = true)
               ∧ Method_r (write (out_StartURI (index (Fields msg) FieldURI) ""
                                    (Size desc) false) warn) = Method_r m
               ∧ (∀ k x, Method_cacheByOCIRef m !! k = Some x →
                    Method_cacheByOCIRef
                      (write (out_StartURI (index (Fields msg) FieldURI) ""
                                (Size desc) false) warn) !! k = Some x))
    as Hstarted.
  { intros e.
    eapply (Hfin true e);
      [rewrite write_w, Hwp, <- app_assoc; reflexivity | done | done | | | done].
    - rewrite existsb_app. simpl. by rewrite orb_true_r.
    - rewrite existsb_app, Hgp. done. }
  destruct (Fetch (fetcher c) desc) as [e|r]; [intros [= <- <- <-]; apply Hstarted|].
  destruct (os_Create W _) as [e|w]; [intros [= <- <- <-]; apply Hstarted|].
  destruct (io_Copy w r) as [e|]; [intros [= <- <- <-]; apply Hstarted|].
  destruct (File_closeErr w) as [e|]; [intros [= <- <- <-]; apply Hstarted|].
  destruct (rc_closeErr r) as [e|]; [intros [= <- <- <-]; apply Hstarted|].
  destruct (digestMismatch _ _) as [[|]| |]; [| |done..].
  { intros [= <- <- <-]; apply Hstarted. }
  destruct (Digest_Encoded _) as [enc| |]; [|done..].
  intros [= <- <- <-].
  eapply (Hfin true None);
    [rewrite !write_w, Hwp, <- !app_assoc; reflexivity | done | done | | | done].
  - rewrite existsb_app. simpl. by rewrite orb_true_r.
  - rewrite existsb_app, Hgp. done.
Qed.

End acquire_facts.

Section acquire_claims.
Context `{GoLib}.
Implicit Types (W : World) (m : Method) (msg : Message).

Lemma digestMismatch_sha256 alg enc content :
  occurs colon alg = false →
  digestMismatch (alg +:+ ":" +:+ enc) (SHA256_Digest content)
  = Returns (String.eqb alg "sha256" && negb (String.eqb enc (sha256_hex content))).
Proof.
  intros Halg. unfold digestMismatch, Digest_Algorithm, Digest_Encoded, SHA256_Digest.
  change (":" +:+ enc) with (String colon enc).
  rewrite (cut_append colon alg enc Halg).
  change (cut colon ("sha256:" +:+ sha256_hex content))
    with (Some ("sha256", sha256_hex content)).
  unfold_bind. by destruct (String.eqb alg "sha256").
Qed.

Lemma Digest_Encoded_sha256 content :
  Digest_Encoded (SHA256_Digest content) = Returns (sha256_hex content).
Proof. reflexivity. Qed.

(** [acquire] from the point where the blob has been fetched and written. *)
Lemma acquire_fetched W msg m ociRef title c mid desc r w alg enc :
  parseURIFields msg = inr (ociRef, title) →
  doCacheStuff W (index (Fields msg) FieldURI) ociRef (parsing msg m)
    = Returns (inr c, mid) →
  fileMap c !! title = Some desc →
  Fetch (fetcher c) desc = inr r →
  os_Create W (index (Fields msg) FieldFilename) = inr w →
  io_Copy w r = None →
  File_closeErr w = None →
  rc_closeErr r = None →
  Digest desc = alg +:+ ":" +:+ enc →
  occurs colon alg = false →
  acquire W msg m =
    if String.eqb alg "sha256" && negb (String.eqb enc (sha256_hex (rc_content r)))
    then Returns ((true,
           Some (errorString
                   ("expected digest of " +:+ strconv_Quote title +:+ " to be "
                    +:+ Digest desc +:+ ", got " +:+ SHA256_Digest (rc_content r)))),
           afterStart msg title desc mid)
    else Returns ((true, None),
           write (doneMessage msg desc (sha256_hex (rc_content r)))
                 (afterStart msg title desc mid)).
Proof.
  intros Hfields Hcache Hfile Hfetch Hcreate Hcopy Hclosew Hcloser Hdigest Halg.
  unfold parsing in Hcache.
unfold acquire. rewrite Hfields. unfold_bind. rewrite Hcache, Hfile, Hfetch.
  rewrite Hcreate, Hcopy, Hclosew, Hcloser.
  rewrite Hdigest at 1. rewrite (digestMismatch_sha256 _ _ _ Halg).
  destruct (_ && _); [done|].
  by rewrite Digest_Encoded_sha256.
Qed.

End acquire_claims.

(** C1.  Once the blob has been fetched and written: a declared digest
    [sha256:enc] whose [enc] differs from the computed SHA-256 makes
    [acquire] fail, at [started = true], with an error that names the
    declared and the computed digest; with [enc] equal to the computed value
    [acquire] succeeds and reports [201 URI Done]; a declared digest of any
    other algorithm is not compared, whatever its value, and [acquire]
    succeeds. *)
Theorem acquire_digest_verification `{GoLib} (W : World) (msg : Message) (m : Method)
    (ociRef : Named) (title : string) (c : cacheByOCIRef) (mid : Method)
    (desc : Descriptor) (r : ReadCloser) (w : File) (alg enc : string) :
  parseURIFields msg = inr (ociRef, title) →
  doCacheStuff W (index (Fields msg) FieldURI) ociRef (parsing msg m)
    = Returns (inr c, mid) →
  fileMap c !! title = Some desc →
  Fetch (fetcher c) desc = inr r →
  os_Create W (index (Fields msg) FieldFilename) = inr w →
  io_Copy w r = None →
  File_closeErr w = None →
  rc_closeErr r = None →
  Digest desc = alg +:+ ":" +:+ enc →
  occurs colon alg = false →
  let computed := sha256_hex (rc_content r) in
  let accepted :=
    Returns ((true, None),
             write (doneMessage msg desc computed) (afterStart msg title desc mid)) in
  (alg = "sha256" → enc ≠ computed →
     acquire W msg m =
       Returns ((true,
                 Some (errorString
                         ("expected digest of " +:+ strconv_Quote title +:+ " to be "
                          +:+ "sha256:" +:+ enc +:+ ", got " +:+ "sha256:" +:+ computed))),
                afterStart msg title desc mid))
  ∧ (alg = "sha256" → enc = computed → acquire W msg m = accepted)
  ∧ (alg ≠ "sha256" → acquire W msg m = accepted).
Proof.
  intros Hfields Hcache Hfile Hfetch Hcreate Hcopy Hclosew Hcloser Hdigest Halg.
  intros computed accepted.
  rewrite (acquire_fetched W msg m ociRef title c mid desc r w alg enc) by done.
  fold computed. split; [|split].
  - intros -> Hne. rewrite String.eqb_refl. simpl.
    apply String.eqb_neq in Hne. rewrite Hne. simpl. by rewrite Hdigest.
  - intros -> ->. by rewrite !String.eqb_refl.
  - intros Hne. apply String.eqb_neq in Hne. by rewrite Hne.
Qed.

Lemma digestMismatch_ends (declared dig : string) :
  digestMismatch declared dig ≠ OutOfFuel.
Proof.
  unfold digestMismatch, Digest_Algorithm, Digest_Encoded. unfold_bind.
  destruct (cut colon declared) as [[a x]|]; [|done].
  destruct (cut colon dig) as [[b y]|]; [|done].
  by destruct (String.eqb a b).
Qed.

(** [acquire], stage by stage, down to the comparison of the digests. *)
Lemma acquire_stages `{GoLib} (W : World) (msg : Message) (m : Method) :
  match parseURIFields msg with
  | inl e => acquire W msg m = Returns ((false, Some e), parsing msg m)
  | inr (ociRef, title) =>
      ∀ cached mid,
        doCacheStuff W (index (Fields msg) FieldURI) ociRef (parsing msg m)
          = Returns (cached, mid) →
        match cached with
        | inl e => acquire W msg m = Returns ((false, Some e), mid)
        | inr c =>
            match fileMap c !! title with
            | None =>
                acquire W msg m
                = Returns ((false, Some (fileNotFound ociRef title)), mid)
            | Some desc =>
                let failed e :=
                  acquire W msg m
                  = Returns ((true, Some e), afterStart msg title desc mid) in
                match Fetch (fetcher c) desc with
                | inl e => failed e
                | inr r =>
                    match os_Create W (index (Fields msg) FieldFilename) with
                    | inl e => failed e
                    | inr w =>
                        match io_Copy w r, File_closeErr w, rc_closeErr r with
                        | Some e, _, _ => failed e
                        | None, Some e, _ => failed e
                        | None, None, Some e => failed e
                        | None, None, None =>
                            let computed := SHA256_Digest (rc_content r) in
                            match digestMismatch (Digest desc) computed with
                            | Returns true =>
                                failed (errorString
                                  ("expected digest of " +:+ strconv_Quote title
                                   +:+ " to be " +:+ Digest desc
                                   +:+ ", got " +:+ computed))
                            | Returns false =>
                                acquire W msg m
                                = Returns ((true, None),
                                    write (doneMessage msg desc
                                             (sha256_hex (rc_content r)))
                                          (afterStart msg title desc mid))
                            | Panics why => acquire W msg m = Panics why
                            | OutOfFuel => False
                            end
                        end
                    end
                end
            end
        end
  end.
Proof.
  unfold acquire, parsing.
  destruct (parseURIFields msg) as [e|[ociRef title]]; [done|].
  intros cached mid Hcache. unfold_bind. rewrite Hcache.
  destruct cached as [e|c]; [done|].
  destruct (fileMap c !! title) as [desc|]; [|done].
  destruct (Fetch (fetcher c) desc) as [e|r]; [done|].
  destruct (os_Create W _) as [e|w]; [done|].
  destruct (io_Copy w r) as [e|]; [done|].
  destruct (File_closeErr w) as [e|]; [done|].
  destruct (rc_closeErr r) as [e|]; [done|].
  cbv zeta.
  destruct (digestMismatch (Digest desc) (SHA256_Digest (rc_content r)))
    as [[|]| |] eqn:Hcheck; [done | done | done |].
  by apply digestMismatch_ends in Hcheck.
Qed.

(** C2.  The flag returned by [acquire] is set exactly when [acquire] has
    written a [200 URI Start], which is the case on every success; and
    [handleURIAcquire] writes, after a failure, a [200 URI Start] of its own
    exactly when the flag is not set, followed by the [400 URI Failure].
    Stage by stage: a failure of the field parsing, of the cache step or of
    the look-up in the file map returns the flag unset, with nothing written
    but status messages; a failure of the blob fetch, of the creation of the
    file, of the copy, of closing either stream or of the comparison of the
    digests returns the flag set, after the [200 URI Start]; and so does the
    success, after the [201 URI Done]. *)
Theorem acquire_started_flag `{GoLib} (W : World) (msg : Message) (m : Method) :
  (∀ started err m',
      acquire W msg m = Returns ((started, err), m') →
      (∃ out, Method_w m' = Method_w m ++ out ∧ started = existsb is_StartURI out)
      ∧ (err = None → started = true)
      ∧ ∃ m'', handleURIAcquire W msg m = Returns m''
               ∧ Method_w m'' = Method_w m' ++
                   match err with
                   | None => []
                   | Some e => failureReport msg started e
                   end)
  ∧ match parseURIFields msg with
    | inl e => acquire W msg m = Returns ((false, Some e), parsing msg m)
    | inr (ociRef, title) =>
        ∀ cached mid,
          doCacheStuff W (index (Fields msg) FieldURI) ociRef (parsing msg m)
            = Returns (cached, mid) →
          match cached with
          | inl e => acquire W msg m = Returns ((false, Some e), mid)
          | inr c =>
              match fileMap c !! title with
              | None =>
                  acquire W msg m
                  = Returns ((false, Some (fileNotFound ociRef title)), mid)
              | Some desc =>
                  let failed e :=
                    acquire W msg m
                    = Returns ((true, Some e), afterStart msg title desc mid) in
                  match Fetch (fetcher c) desc with
                  | inl e => failed e
                  | inr r =>
                      match os_Create W (index (Fields msg) FieldFilename) with
                      | inl e => failed e
                      | inr w =>
                          match io_Copy w r, File_closeErr w, rc_closeErr r with
                          | Some e, _, _ => failed e
                          | None, Some e, _ => failed e
                          | None, None, Some e => failed e
                          | None, None, None =>
                              let computed := SHA256_Digest (rc_content r) in
                              match digestMismatch (Digest desc) computed with
                              | Returns true =>
                                  failed (errorString
                                    ("expected digest of " +:+ strconv_Quote title
                                     +:+ " to be " +:+ Digest desc
                                     +:+ ", got " +:+ computed))
                              | Returns false =>
                                  acquire W msg m
                                  = Returns ((true, None),
                                      write (doneMessage msg desc
                                               (sha256_hex (rc_content r)))
                                            (afterStart msg title desc mid))
                              | Panics why => acquire W msg m = Panics why
                              | OutOfFuel => False
                              end
                          end
                      end
                  end
              end
          end
    end.
Proof.
  split; [|apply acquire_stages].
  intros started err m' Hacq.
  destruct (acquire_effect _ _ _ _ _ _ Hacq) as ((out & Hw & Hs & _) & Hok & _).
  split; [by eauto|]. split; [done|].
  unfold handleURIAcquire. unfold_bind. rewrite Hacq.
  destruct err as [e|].
  - eexists. split; [done|]. unfold failureReport.
    destruct started; simpl; rewrite ?write_w; by rewrite <- ?app_assoc.
  - eexists. split; [done|]. by rewrite app_nil_r.
Qed.

Lemma acquire_digest_verification_witness :
  (∃ m' e,
      acquire (H := Sample.lib) Sample.world
        (Sample.request "oci://reg.example/repo:latest/Packages" "/tmp/Packages")
        (Sample.input "" io_EOF) = Returns ((true, Some e), m')
      ∧ Error e = "expected digest of " +:+ dq +:+ "Packages" +:+ dq
                  +:+ " to be sha256:" +:+ Sample.empty_sha256
                  +:+ ", got sha256:" +:+ Sample.hello_sha256)
  ∧ (∃ m',
      acquire (H := Sample.lib) Sample.world
        (Sample.request "oci://reg.example/repo:latest/pool/md5.deb" "/tmp/md5.deb")
        (Sample.input "" io_EOF) = Returns ((true, None), m')).
Proof.
  split.
  - epose proof (acquire_digest_verification (H := Sample.lib) Sample.world
                 (Sample.request "oci://reg.example/repo:latest/Packages" "/tmp/Packages")
                 (Sample.input "" io_EOF)
                 ("reg.example/repo:latest" : @Named Sample.lib) "Packages"
                 _ _ _ _ _ "sha256" Sample.empty_sha256) as Hcheck.
    edestruct Hcheck as (Hbad & _ & _); [vm_compute; reflexivity ..| ].
    eexists _, _. split; [apply Hbad; by vm_compute|]. by vm_compute.
  - epose proof (acquire_digest_verification (H := Sample.lib) Sample.world
                 (Sample.request "oci://reg.example/repo:latest/pool/md5.deb" "/tmp/md5.deb")
                 (Sample.input "" io_EOF)
                 ("reg.example/repo:latest" : @Named Sample.lib) "pool/md5.deb"
                 _ _ _ _ _ "md5" "5d41402abc4b2a76b9719d911017c592") as Hcheck.
    edestruct Hcheck as (_ & _ & Hother); [vm_compute; reflexivity ..| ].
    eexists. apply Hother. by vm_compute.
Defined.

Lemma acquire_started_flag_witness :
  let msg := Sample.request "oci://reg.example/repo:latest/missing.deb" "/tmp/missing.deb" in
  ∃ m' e m'',
    acquire (H := Sample.lib) Sample.world msg (Sample.input "" io_EOF)
      = Returns ((false, Some e), m')
    ∧ handleURIAcquire (H := Sample.lib) Sample.world msg (Sample.input "" io_EOF)
      = Returns m''
    ∧ Method_w m'' = Method_w m' ++ failureReport msg false e.
Proof.
  intros msg.
  set (res := acquire (H := Sample.lib) Sample.world msg (Sample.input "" io_EOF)).
  assert (acquire (H := Sample.lib) Sample.world msg (Sample.input "" io_EOF) = res)
    as Hacq by reflexivity.
  vm_compute in (value of res). subst res.
  destruct (acquire_started_flag (H := Sample.lib) Sample.world msg (Sample.input "" io_EOF))
    as [Hflag _].
  destruct (Hflag _ _ _ Hacq) as (_ & _ & m'' & Hhandle & Hw).
  eexists _, _, m''. split; [exact Hacq|]. split; [exact Hhandle | exact Hw].
Defined.

(** ** The loop of [Run] and the cache *)

Section run_facts.
Context `{GoLib}.
Implicit Types (W : World) (m : Method).

Lemma keeps_refl m : keeps m m.
Proof. by intros k x. Qed.

Lemma keeps_trans m1 m2 m3 : keeps m1 m2 → keeps m2 m3 → keeps m1 m3.
Proof. intros H12 H23 k x Hk. by apply H23, H12. Qed.

Lemma handleURIAcquire_effect W msg m m' :
  handleURIAcquire W msg m = Returns m' →
  (∃ out, Method_w m' = Method_w m ++ out ∧ existsb is_GeneralFailure out = false)
  ∧ Method_r m' = Method_r m
  ∧ keeps m m'.
Proof.
  unfold handleURIAcquire. unfold_bind.
  destruct (acquire W msg m) as [[[started err] mid]| |] eqn:Hacq; [|done..].
  destruct (acquire_effect _ _ _ _ _ _ Hacq) as ((out & Hw & _ & Hg) & _ & Hr & Hkeep).
  destruct err as [e|]; intros [= <-].
  - split; [|by destruct started].
    destruct started; simpl; rewrite ?write_w, Hw, <- ?app_assoc;
      eexists; (split; [reflexivity|]); rewrite existsb_app, Hg; done.
  - split; [by eauto|done].
Qed.

Lemma dispatchMessage_keeps W msg m t :
  dispatchMessage W msg m = Returns t → keeps m (turnMethod t).
Proof.
  unfold dispatchMessage. destruct msg as [msg|]; [|done].
  destruct (_ =? _)%N.
  - unfold_bind.
    destruct (handleURIAcquire W msg m) as [m'| |] eqn:Hh; [|done..].
    intros [= <-]. by apply handleURIAcquire_effect in Hh as (_ & _ & Hkeep).
  - intros [= <-]. by intros k x.
Qed.

Lemma Run_turn_keeps fuel W m t :
  Run_turn fuel W m = Returns t → keeps m (turnMethod t).
Proof.
  unfold Run_turn.
  destruct (ReadMessage fuel (Method_r m)) as [[[msg err] r]|]; [|done].
  destruct err as [e|].
  - destruct (_ || _); [intros [= <-]; by intros k x|].
    destruct (_ || _); [|intros [= <-]; by intros k x].
    intros Hd. by apply dispatchMessage_keeps in Hd.
  - intros Hd. by apply dispatchMessage_keeps in Hd.
Qed.

Lemma Run_loop_keeps fuel W m m' :
  Run_loop fuel W m = Returns m' → keeps m m'.
Proof.
  revert m. induction fuel as [|fuel IH]; intros m; [done|].
  cbn [Run_loop]. unfold_bind.
  destruct (Run_turn (S fuel) W m) as [t| |] eqn:Hturn; [|done..].
  apply Run_turn_keeps in Hturn.
  destruct t as [m1|m1]; simpl in Hturn.
  - intros Hloop. eapply keeps_trans; [done|]. by apply IH.
  - by intros [= <-].
Qed.

End run_facts.

(** C7.  A cache hit returns the stored entry and leaves the method as it
    is, whatever the registry would answer; a call of [doCacheStuff] keeps
    every entry, changes no key but that of its own reference, and the entry
    it returns is the one stored under that key; [acquire] and the whole loop
    of [Run] keep every entry. *)
Theorem cache_entries_are_kept `{GoLib} :
  (∀ W uri ociRef m x,
      Method_cacheByOCIRef m !! Named_String ociRef = Some x →
      doCacheStuff W uri ociRef m = Returns (inr x, m))
  ∧ (∀ W uri ociRef m res m',
      doCacheStuff W uri ociRef m = Returns (res, m') →
      keeps m m'
      ∧ (∀ k, k ≠ Named_String ociRef →
              Method_cacheByOCIRef m' !! k = Method_cacheByOCIRef m !! k)
      ∧ (∀ c, res = inr c → Method_cacheByOCIRef m' !! Named_String ociRef = Some c))
  ∧ (∀ W msg m res m', acquire W msg m = Returns (res, m') → keeps m m')
  ∧ (∀ fuel W m m', Run fuel W m = Returns m' → keeps m m').
Proof.
  split; [|split; [|split]].
  - intros W uri ociRef m x. apply doCacheStuff_hit.
  - intros W uri ociRef m res m' Hdo. split; [|split].
    + intros k x. by eapply doCacheStuff_keeps.
    + intros k. by eapply doCacheStuff_other_keys.
    + intros c ->. by eapply doCacheStuff_returns_entry.
  - intros W msg m [started err] m' Hacq.
    by apply acquire_effect in Hacq as (_ & _ & _ & Hkeep).
  - intros fuel W m m' Hrun. unfold Run in Hrun.
    by apply Run_loop_keeps in Hrun.
Qed.

Lemma cache_entries_are_kept_witness :
  let msg := Sample.request "oci://reg.example/repo:latest/pool/pkg.deb" "/tmp/pkg.deb" in
  ∃ m1 m2 c,
    acquire (H := Sample.lib) Sample.world msg (Sample.input "" io_EOF)
      = Returns ((true, None), m1)
    ∧ Method_cacheByOCIRef m1 !! "reg.example/repo:latest" = Some c
    ∧ acquire (H := Sample.lib) Sample.world' msg m1 = Returns ((true, None), m2)
    ∧ Method_cacheByOCIRef m2 !! "reg.example/repo:latest" = Some c.
Proof.
  intros msg.
  destruct (cache_entries_are_kept (H := Sample.lib)) as (_ & _ & Hacquire & _).
  set (first := acquire (H := Sample.lib) Sample.world msg (Sample.input "" io_EOF)).
  assert (acquire (H := Sample.lib) Sample.world msg (Sample.input "" io_EOF) = first)
    as Hfirst by reflexivity.
  vm_compute in (value of first). subst first.
  match type of Hfirst with _ = Returns (_, ?m1) =>
    set (second := acquire (H := Sample.lib) Sample.world' msg m1);
    assert (acquire (H := Sample.lib) Sample.world' msg m1 = second)
      as Hsecond by reflexivity
  end.
  vm_compute in (value of second). subst second.
  eexists _, _, _. split; [exact Hfirst|]. split; [by vm_compute|].
  split; [exact Hsecond|].
  apply (Hacquire _ _ _ _ _ Hsecond). by vm_compute.
Defined.

(** ** The end of the input *)

Section end_of_input.
Context `{GoLib}.
Implicit Types (W : World) (m : Method) (r : MessageReader).

Lemma ReadString_end rd :
  occurs LF (unread rd) = false →
  ReadString rd = ((unread rd, Some (streamErr rd)), mkBufio "" (streamErr rd)).
Proof. intros Hno. unfold ReadString. apply cut_None in Hno. by rewrite Hno. Qed.


Lemma ReadLine_end_idle r :
  message r = None →
  occurs LF (unread (reader r)) = false →
  ReadLine r = ((None, Some (streamErr (reader r))),
                mkReader (mkBufio "" (streamErr (reader r))) None).
Proof.
  intros Hidle Hno. unfold ReadLine, readHeader.
  by rewrite Hidle, (ReadString_end _ Hno).
Qed.



(** Between two messages, a stream that ends with an error other than
    [io.EOF] keeps [ReadMessage] reading: no bound on the number of lines
    lets it return. *)
Lemma ReadMessage_loop_end_spins fuel errs r :
  message r = None →
  occurs LF (unread (reader r)) = false →
  is_io_EOF (streamErr (reader r)) = false →
  ReadMessage_loop fuel errs r = None.
Proof.
  revert errs r. induction fuel as [|fuel IH]; intros errs r Hidle Hno Hnoteof; [done|].
  cbn [ReadMessage_loop]. rewrite (ReadLine_end_idle _ Hidle Hno).
  simpl. rewrite Hnoteof. by apply IH.
Qed.

(** Every call of [ReadLine] uses up input, or meets the end of it. *)
Lemma ReadLine_progress r msg err r' :
  ReadLine r = ((msg, err), r') →
  streamErr (reader r') = streamErr (reader r)
  ∧ ((String.length (unread (reader r')) < String.length (unread (reader r)))%nat
     ∨ err = Some (streamErr (reader r))).
Proof.
  assert (∀ rd line e rd', ReadString rd = ((line, e), rd') →
            streamErr rd' = streamErr rd
            ∧ ((String.length (unread rd') < String.length (unread rd))%nat
                 ∧ e = None
               ∨ e = Some (streamErr rd))) as Hread.
  { intros rd line e rd'. unfold ReadString.
    destruct (cut LF (unread rd)) as [[a b]|] eqn:Hcut.
    - apply cut_Some in Hcut as [Hu _]. intros [= <- <- <-]. split; [done|].
      left. split; [|done]. simpl. rewrite Hu, length_append. simpl. lia.
    - intros [= <- <- <-]. by auto. }
  unfold ReadLine, readHeader, commitMessage.
  destruct (message r) as [cur|].
  - destruct (ReadString (reader r)) as [[line e] rd'] eqn:Hrs.
    apply Hread in Hrs as [Herr Hlen].
    destruct e as [e|].
    + intros [= <- <- <-]. destruct Hlen as [[_ ?]|?]; [done|]. by auto.
    + destruct Hlen as [[Hlen _]|?]; [|done].
      destruct (String.eqb _ ""); [intros [= <- <- <-]; by auto|].
      destruct (negb _).
      * destruct (ParseHeader _) as [hm [he|]]; intros [= <- <- <-]; by auto.
      * intros [= <- <- <-]. by auto.
  - destruct (ReadString (reader r)) as [[line e] rd'] eqn:Hrs.
    apply Hread in Hrs as [Herr Hlen].
    destruct e as [e|].
    + intros [= <- <- <-]. destruct Hlen as [[_ ?]|?]; [done|]. by auto.
    + destruct Hlen as [[Hlen _]|?]; [|done].
      destruct (ParseHeader line) as [hm [he|]]; intros [= <- <- <-]; by auto.
Qed.

(** On a stream that ends with [io.EOF], [ReadMessage] returns after at
    most one call of [ReadLine] per byte left, and one more. *)
Lemma ReadMessage_loop_returns fuel errs r :
  streamErr (reader r) = io_EOF →
  (String.length (unread (reader r)) < fuel)%nat →
  ∃ res, ReadMessage_loop fuel errs r = Some res.
Proof.
  revert errs r. induction fuel as [|fuel IH]; intros errs r Heof Hlen; [lia|].
  cbn [ReadMessage_loop].
  destruct (ReadLine r) as [[msg err] r'] eqn:Hline.
  destruct (ReadLine_progress _ _ _ _ Hline) as [Herr Hprog].
  destruct msg as [msg|], err as [e|]; simpl.
  - destruct errs; by eauto.
  - destruct errs; by eauto.
  - destruct (is_io_EOF e) eqn:Hstop.
    + destruct errs; by eauto.
    + destruct Hprog as [Hshort|[= ->]].
      * apply IH; [congruence | lia].
      * by rewrite Heof in Hstop.
  - destruct Hprog as [Hshort|?]; [|done].
    apply IH; [congruence | lia].
Qed.





End end_of_input.




(** ** [buildFileMap] *)

Section buildFileMap_facts.
Context `{GoLib}.
Variable fetcher : Fetcher.
Implicit Types (d l : Descriptor) (files : gmap string Descriptor).
Implicit Types (pending visited : list Descriptor).

(** *** The loop over the layers of one manifest *)

Lemma recordLayers_cons l ls files :
  recordLayers (l :: ls) files
  = recordLayers ls (if negb (String.eqb (title_of l) "")
                     then <[keyOf l := l]> files else files).
Proof. done. Qed.

Lemma recordLayers_app ls1 ls2 files :
  recordLayers (ls1 ++ ls2) files = recordLayers ls2 (recordLayers ls1 files).
Proof. unfold recordLayers. by rewrite fold_left_app. Qed.

Lemma titled_eqb l : titled l → negb (String.eqb (title_of l) "") = true.
Proof. intros Ht. by apply negb_true_iff, String.eqb_neq. Qed.

(** Entries under other keys stay. *)
Lemma recordLayers_other ls files k :
  (∀ l, l ∈ ls → titled l → keyOf l ≠ k) →
  recordLayers ls files !! k = files !! k.
Proof.
  revert files. induction ls as [|l0 ls IH]; intros files Hother; [done|].
  rewrite recordLayers_cons, IH.
  - destruct (negb _) eqn:Ht0; [|done].
    apply lookup_insert_ne. apply Hother; [by left|].
    by apply negb_true_iff, String.eqb_neq in Ht0.
  - intros l Hl. apply Hother. by right.
Qed.

(** The last titled layer filed under a path is the entry. *)
Lemma recordLayers_last front l rest files :
  titled l →
  (∀ l', l' ∈ rest → titled l' → keyOf l' ≠ keyOf l) →
  recordLayers (front ++ l :: rest) files !! keyOf l = Some l.
Proof.
  intros Ht Hrest.
  rewrite recordLayers_app, recordLayers_cons, (titled_eqb _ Ht).
  rewrite (recordLayers_other rest _ _ Hrest). apply lookup_insert_eq.
Qed.

(** *** The goroutines of [images.Dispatch] *)

Lemma splice_middle {A} (l1 : list A) (x : A) (l2 new : list A) :
  splice (length l1) new (l1 ++ x :: l2) = l1 ++ new ++ l2.
Proof.
  unfold splice. rewrite take_app_length. do 2 f_equal.
  rewrite (cons_middle x l1 l2), app_assoc.
  rewrite drop_app_length'; [done|]. rewrite length_app. simpl. lia.
Qed.

Lemma Dispatch_step i order running files failed :
  running ≠ [] →
  Dispatch (ev_step i :: order) fetcher running files failed
  = let j := (i mod length running)%nat in
    match running !! j with
    | None => OutOfFuel
    | Some (go_Handle desc) =>
        match handler fetcher desc with
        | toFile layers =>
            Dispatch order fetcher (splice j [go_Layers layers] running) files failed
        | toVisit children =>
            Dispatch order fetcher (splice j (map go_Handle children) running)
                     files failed
        | handlerFailed err =>
            if errors_Is err sErrSkipDesc then
              Dispatch order fetcher (splice j [] running) files failed
            else
              Dispatch order fetcher (splice j [] running) files (firstError failed err)
        end
    | Some (go_Layers []) => Dispatch order fetcher (splice j [] running) files failed
    | Some (go_Layers (l :: layers)) =>
        Dispatch order fetcher (splice j [go_Layers layers] running)
                 (fileLayer l files) failed
    end.
Proof. by destruct running. Qed.

Lemma Dispatch_clash order running files failed :
  running ≠ [] →
  Dispatch (ev_clash :: order) fetcher running files failed
  = if (2 <=? length (List.filter assigns running))%nat
    then Panics concurrentMapWrites
    else Dispatch order fetcher running files failed.
Proof. by destruct running. Qed.

(** the step of the goroutine that stands after [front] *)
Lemma Dispatch_step_at order (front : list Goroutine) g (back : list Goroutine)
    files failed :
  Dispatch (ev_step (length front) :: order) fetcher (front ++ g :: back) files failed
  = match g with
    | go_Handle desc =>
        match handler fetcher desc with
        | toFile layers =>
            Dispatch order fetcher (front ++ [go_Layers layers] ++ back) files failed
        | toVisit children =>
            Dispatch order fetcher (front ++ map go_Handle children ++ back) files failed
        | handlerFailed err =>
            if errors_Is err sErrSkipDesc then
              Dispatch order fetcher (front ++ [] ++ back) files failed
            else Dispatch order fetcher (front ++ [] ++ back) files (firstError failed err)
        end
    | go_Layers [] => Dispatch order fetcher (front ++ [] ++ back) files failed
    | go_Layers (l :: layers) =>
        Dispatch order fetcher (front ++ [go_Layers layers] ++ back) (fileLayer l files) failed
    end.
Proof.
  rewrite Dispatch_step by (by destruct front).
  assert (length front `mod` length (front ++ g :: back) = length front)%nat as Hj.
  { apply Nat.mod_small. rewrite length_app. simpl. lia. }
  cbv zeta. rewrite Hj, list_lookup_middle by done.
  destruct g as [desc|[|l ls]]; [|by rewrite splice_middle..].
  destruct (handler fetcher desc) as [ls|cs|err]; [by rewrite splice_middle..|].
  destruct (errors_Is err sErrSkipDesc); by rewrite splice_middle.
Qed.

Lemma titled_assigns ls : Exists titled ls → assigns (go_Layers ls) = true.
Proof.
  intros (l & Hl & Ht)%Exists_exists. simpl.
  apply existsb_exists. exists l. split; [by apply list_elem_of_In|].
  by apply titled_eqb.
Qed.

Lemma layers_toFile d : layers fetcher d ≠ [] → handler fetcher d = toFile (layers fetcher d).
Proof. unfold layers. by destruct (handler fetcher d). Qed.

Lemma children_toVisit d :
  children fetcher d ≠ [] → handler fetcher d = toVisit (children fetcher d).
Proof. unfold children. by destruct (handler fetcher d). Qed.

End buildFileMap_facts.

(** C6.  The claim does not hold of the code: [images.Dispatch] runs the
    handlers of the manifests of an index in parallel, and each assigns to
    the one map without a lock.  For an index that lists two manifests that
    each have a titled layer, here is a run in which [buildFileMap] produces
    no mapping: the root is handled, the two manifests are fetched and
    decoded, and their assignments to the map meet, on which the Go runtime
    ends the process with [concurrent map writes]. *)
Theorem buildFileMap_concurrent_map_writes `{GoLib} (fetcher : Fetcher)
    (rootDesc : Descriptor) (before : list Descriptor) (manifestA : Descriptor)
    (between : list Descriptor) (manifestB : Descriptor) (after : list Descriptor) :
  children fetcher rootDesc = before ++ manifestA :: between ++ manifestB :: after →
  Exists titled (layers fetcher manifestA) →
  Exists titled (layers fetcher manifestB) →
  buildFileMap [ev_step 0; ev_step (length before);
                ev_step (length before + 1 + length between); ev_clash]
               fetcher rootDesc
  = Panics concurrentMapWrites.
Proof.
  intros Hkids HA HB.
  assert (handler fetcher rootDesc
          = toVisit (before ++ manifestA :: between ++ manifestB :: after)) as Hroot.
  { rewrite <- Hkids. apply children_toVisit. rewrite Hkids. by destruct before. }
  assert (handler fetcher manifestA = toFile (layers fetcher manifestA)) as HhA.
  { apply layers_toFile. intros Hnil. rewrite Hnil in HA. by apply Exists_nil in HA. }
  assert (handler fetcher manifestB = toFile (layers fetcher manifestB)) as HhB.
  { apply layers_toFile. intros Hnil. rewrite Hnil in HB. by apply Exists_nil in HB. }
  unfold buildFileMap.
  rewrite (Dispatch_step_at fetcher _ [] (go_Handle rootDesc) []), Hroot.
  rewrite app_nil_r, app_nil_l, map_app, map_cons.
  rewrite <- (length_map go_Handle before) at 1.
  rewrite Dispatch_step_at, HhA.
  set (first := go_Layers (layers fetcher manifestA)).
  rewrite map_app, map_cons.
  assert (length before + 1 + length between
          = length (map go_Handle before ++ [first] ++ map go_Handle between))%nat as ->.
  { rewrite !length_app, !length_map. simpl. lia. }
  replace (map go_Handle before ++ [first]
           ++ map go_Handle between ++ go_Handle manifestB :: map go_Handle after)
    with ((map go_Handle before ++ [first] ++ map go_Handle between)
          ++ go_Handle manifestB :: map go_Handle after)
    by (by rewrite <- !app_assoc).
  rewrite Dispatch_step_at, HhB.
  set (second := go_Layers (layers fetcher manifestB)).
  rewrite Dispatch_clash by (by destruct before).
  assert (2 ≤ length (List.filter assigns
                 ((map go_Handle before ++ [first] ++ map go_Handle between)
                  ++ [second] ++ map go_Handle after)))%nat as Htwo.
  { rewrite !List.filter_app, !length_app. cbn [List.filter].
    unfold first, second. rewrite (titled_assigns _ HA), (titled_assigns _ HB).
    simpl. lia. }
  apply Nat.leb_le in Htwo. by rewrite Htwo.
Qed.

Lemma buildFileMap_concurrent_map_writes_witness :
  buildFileMap (H := Sample.lib) [ev_step 0; ev_step 0; ev_step 1; ev_clash]
    Sample.registry Sample.rootIndex
  = Panics concurrentMapWrites.
Proof.
  apply (buildFileMap_concurrent_map_writes (H := Sample.lib) Sample.registry
           Sample.rootIndex [] Sample.manifestA [] Sample.manifestB [Sample.config]).
  - reflexivity.
  - apply Exists_cons_hd. by vm_compute.
  - apply Exists_cons_tl, Exists_cons_hd. by vm_compute.
Defined.

(* ===================================================================== *)
(** * Further properties of the code *)
(* ===================================================================== *)

(** ** More on byte strings *)

Lemma upto_append (s t : string) : upto (String.length s) (s +:+ t) = s.
Proof.
  induction s as [|c s IH]; [by destruct t|].
  rewrite append_cons. simpl. by f_equal.
Qed.

Lemma HasSuffix_append (s suffix : string) : HasSuffix (s +:+ suffix) suffix = true.
Proof.
  unfold HasSuffix. rewrite length_append.
  replace (String.length s + String.length suffix - String.length suffix)%nat
    with (String.length s) by lia.
  rewrite from_append, String.eqb_refl, andb_true_r.
  apply Nat.leb_le. lia.
Qed.

Lemma TrimSuffix_append (s suffix : string) : TrimSuffix (s +:+ suffix) suffix = s.
Proof.
  unfold TrimSuffix. rewrite HasSuffix_append, length_append.
  replace (String.length s + String.length suffix - String.length suffix)%nat
    with (String.length s) by lia.
  apply upto_append.
Qed.

Lemma HasPrefix_length (s p : string) :
  HasPrefix s p = true → (String.length p ≤ String.length s)%nat.
Proof.
  revert s. induction p as [|c p IH]; intros s; simpl; [lia|].
  destruct s as [|d s]; [done|]. destruct (Ascii.eqb d c); [|done].
  intros Hp%IH. simpl. lia.
Qed.

Lemma HasPrefix_longer (s : string) (c : ascii) (t : string) :
  HasPrefix s (s +:+ String c t) = false.
Proof.
  destruct (HasPrefix s (s +:+ String c t)) eqn:Hp; [|done].
  apply HasPrefix_length in Hp. rewrite length_append in Hp. simpl in Hp. lia.
Qed.

(** ** [parseURI] and [parseURIFields] *)

(** X1.  A successful [parseURI] loses nothing of its input: the reference
    followed by the path is the input, or, when no slash follows the tag, the
    path is empty and the reference is the input with a slash added. *)
Theorem parseURI_lossless (uri repo path : string) :
  parseURI uri = (repo, path, None) →
  repo +:+ path = uri ∨ (path = "" ∧ repo = uri +:+ "/").
Proof.
  rewrite parseURI_unfold.
  destruct (HasPrefix uri "oci://") eqn:Hp; [|done].
  apply HasPrefix_split in Hp. simpl String.length in Hp.
  destruct (cut colon (from 6 uri)) as [[host rest]|] eqn:Hc; [|done].
  apply cut_Some in Hc as [Hrem _].
  destruct (cut slash rest) as [[tag p]|] eqn:Hs.
  - apply cut_Some in Hs as [Hrest _]. intros [= <- <-]. left.
    rewrite Hp, Hrem, Hrest. by rewrite !append_assoc.
  - intros [= <- <-]. right. split; [done|].
    rewrite Hp, Hrem. by rewrite !append_assoc.
Qed.

Lemma parseURI_lossless_witness :
  "oci://reg.example/ns:v1/" +:+ "dists/Release" = "oci://reg.example/ns:v1/dists/Release"
  ∨ ("dists/Release" = "" ∧ "oci://reg.example/ns:v1/"
                              = "oci://reg.example/ns:v1/dists/Release" +:+ "/").
Proof.
  apply (parseURI_lossless "oci://reg.example/ns:v1/dists/Release"). reflexivity.
Defined.

(** X2.  Without a [Target-Repo-URI] field the reference is taken from the
    [URI] field: for [oci://host:tag/path] the reference is parsed from
    [host:tag] and the title is [path] less one leading [./]; for
    [oci://host:tag], with nothing after the tag, the title is the whole
    [URI] field. *)
Theorem parseURIFields_from_URI `{GoLib} (msg : Message) (host tag : string)
    (ociRef : Named) :
  index (Fields msg) FieldTargetRepoURI = "" →
  occurs colon host = false →
  occurs slash tag = false →
  refdocker_ParseDockerRef (host +:+ ":" +:+ tag) = inr ociRef →
  (∀ path,
      index (Fields msg) FieldURI = "oci://" +:+ host +:+ ":" +:+ tag +:+ "/" +:+ path →
      parseURIFields msg = inr (ociRef, TrimPrefix path "./"))
  ∧ (index (Fields msg) FieldURI = "oci://" +:+ host +:+ ":" +:+ tag →
      parseURIFields msg = inr (ociRef, "oci://" +:+ host +:+ ":" +:+ tag)).
Proof.
  intros Hrepo Hhost Htag Href.
  assert (TrimSuffix (TrimPrefix ("oci://" +:+ host +:+ ":" +:+ tag +:+ "/") "oci://") "/"
          = host +:+ ":" +:+ tag) as Htrim.
  { rewrite TrimPrefix_append.
    rewrite <- (append_assoc host ":" (tag +:+ "/")), <- append_assoc.
    rewrite TrimSuffix_append. by rewrite append_assoc. }
  split.
  - intros path Huri. unfold parseURIFields. rewrite Hrepo, Huri. simpl String.eqb.
    cbv iota. rewrite (parseURI_shape host tag path Hhost Htag).
    rewrite HasPrefix_append. simpl negb. cbv iota.
    rewrite Htrim, Href. do 2 f_equal.
    rewrite <- (TrimPrefix_append ("oci://" +:+ host +:+ ":" +:+ tag +:+ "/") path) at 2.
    by rewrite !append_assoc.
  - intros Huri. unfold parseURIFields. rewrite Hrepo, Huri. simpl String.eqb.
    cbv iota. rewrite (parseURI_shape_bare host tag Hhost Htag).
    rewrite HasPrefix_append. simpl negb. cbv iota.
    rewrite Htrim, Href. do 2 f_equal.
    assert (HasPrefix ("oci://" +:+ host +:+ ":" +:+ tag)
                      ("oci://" +:+ host +:+ ":" +:+ tag +:+ "/") = false) as Hno.
    { replace ("oci://" +:+ host +:+ ":" +:+ tag +:+ "/")
        with (("oci://" +:+ host +:+ ":" +:+ tag) +:+ "/")
        by (by rewrite !append_assoc).
      apply (HasPrefix_longer _ slash ""). }
    rewrite (TrimPrefix_without _ _ Hno).
    apply TrimPrefix_without. reflexivity.
Qed.

Lemma parseURIFields_from_URI_witness :
  let msg := Sample.request "oci://reg.example:latest/./pkg.deb" "/tmp/pkg.deb" in
  parseURIFields (H := Sample.lib) msg
  = inr ("reg.example:latest" : @Named Sample.lib, TrimPrefix "./pkg.deb" "./").
Proof.
  intros msg.
  destruct (parseURIFields_from_URI (H := Sample.lib) msg "reg.example" "latest"
              "reg.example:latest") as [Hpath _]; [reflexivity..|].
  apply Hpath. reflexivity.
Defined.

(** X3.  With a [Target-Repo-URI] field that starts with [oci://], parses as
    a reference and is a prefix of the [URI] field, the title is what follows
    it in the [URI] field, less one leading [./]. *)
Theorem parseURIFields_under_repo `{GoLib} (msg : Message) (repoURI rest : string)
    (ociRef : Named) :
  index (Fields msg) FieldTargetRepoURI = repoURI →
  HasPrefix repoURI "oci://" = true →
  refdocker_ParseDockerRef (TrimSuffix (TrimPrefix repoURI "oci://") "/") = inr ociRef →
  index (Fields msg) FieldURI = repoURI +:+ rest →
  parseURIFields msg = inr (ociRef, TrimPrefix rest "./").
Proof.
  intros Hrepo Hscheme Href Huri.
  unfold parseURIFields. rewrite Hrepo, Huri.
  destruct (String.eqb_spec repoURI "") as [->|_]; [done|].
  rewrite Hscheme. simpl negb. cbv iota. rewrite Href.
  by rewrite TrimPrefix_append.
Qed.

Lemma parseURIFields_under_repo_witness :
  let msg :=
    mkMessage 600 "URI Acquire"
      (<[FieldTargetRepoURI := "oci://reg.example/repo:latest"]>
         (<[FieldURI := "oci://reg.example/repo:latest/Packages"]> ∅)) in
  parseURIFields (H := Sample.lib) msg
  = inr ("reg.example/repo:latest" : @Named Sample.lib, TrimPrefix "/Packages" "./").
Proof.
  intros msg.
  apply (parseURIFields_under_repo (H := Sample.lib) msg
           "oci://reg.example/repo:latest" "/Packages" "reg.example/repo:latest");
    by vm_compute.
Defined.

(** ** The cache *)

(** X4.  A call of [doCacheStuff] that fails stores nothing: the cache is as
    before, with no entry for the reference, so that the next call for it
    resolves and builds anew. *)
Theorem doCacheStuff_failure_not_cached `{GoLib} (W : World) (uri : string)
    (ociRef : Named) (m : Method) (e : error) (m' : Method) :
  doCacheStuff W uri ociRef m = Returns (inl e, m') →
  Method_cacheByOCIRef m' = Method_cacheByOCIRef m
  ∧ Method_cacheByOCIRef m' !! Named_String ociRef = None.
Proof.
  intros Hdo.
  assert (Method_cacheByOCIRef m !! Named_String ociRef = None) as Hfree.
  { destruct (Method_cacheByOCIRef m !! Named_String ociRef) as [x|] eqn:Hx; [|done].
    by rewrite (doCacheStuff_hit _ _ _ _ _ Hx) in Hdo. }
  destruct (doCacheStuff_effect _ _ _ _ _ _ Hdo) as (_ & _ & [Hsame|(c & Hc & _)]).
  - by rewrite Hsame.
  - done.
Qed.

Lemma doCacheStuff_failure_not_cached_witness :
  let W := mkWorld (λ _, inl (errorString "no credentials")) Sample.disk [] in
  ∃ e m',
    doCacheStuff (H := Sample.lib) W "oci://reg.example/repo:latest/Packages"
      "reg.example/repo:latest" (Sample.input "" io_EOF) = Returns (inl e, m')
    ∧ Method_cacheByOCIRef m' = Method_cacheByOCIRef (Sample.input "" io_EOF)
    ∧ Method_cacheByOCIRef m' !! "reg.example/repo:latest" = None.
Proof.
  intros W.
  set (res := doCacheStuff (H := Sample.lib) W "oci://reg.example/repo:latest/Packages"
                "reg.example/repo:latest" (Sample.input "" io_EOF)).
  assert (doCacheStuff (H := Sample.lib) W "oci://reg.example/repo:latest/Packages"
            "reg.example/repo:latest" (Sample.input "" io_EOF) = res) as Hdo
    by reflexivity.
  vm_compute in (value of res). subst res.
  eexists _, _. split; [exact Hdo|].
  exact (doCacheStuff_failure_not_cached (H := Sample.lib) _ _ _ _ _ _ Hdo).
Defined.

(** X5.  With an entry for its reference in the cache, [acquire] does not
    consult the registry: what it returns and writes is the same in every
    world that creates the destination file alike, whatever the resolver of
    that world would answer. *)
Theorem acquire_served_from_cache `{GoLib} (W W' : World) (msg : Message) (m : Method)
    (ociRef : Named) (title : string) (c : cacheByOCIRef) :
  parseURIFields msg = inr (ociRef, title) →
  Method_cacheByOCIRef m !! Named_String ociRef = Some c →
  os_Create W (index (Fields msg) FieldFilename)
    = os_Create W' (index (Fields msg) FieldFilename) →
  acquire W msg m = acquire W' msg m.
Proof.
  intros Hfields Hhit Hcreate.
  unfold acquire. rewrite Hfields.
  rewrite !(doCacheStuff_hit _ _ _ _ c) by done.
  unfold_bind. by rewrite Hcreate.
Qed.

Lemma acquire_served_from_cache_witness :
  let msg := Sample.request "oci://reg.example/repo:latest/pool/pkg.deb" "/tmp/pkg.deb" in
  let offline := mkWorld (λ _, inl (errorString "network unreachable")) Sample.disk [] in
  let m := mkMethod [] (NewMessageReader (mkBufio "" io_EOF))
             (<["reg.example/repo:latest" :=
                  mkCache Sample.registry (<["pool/pkg.deb" := Sample.pkgDeb]> ∅)]> ∅) in
  acquire (H := Sample.lib) Sample.world msg m
  = acquire (H := Sample.lib) offline msg m.
Proof.
  intros msg offline m.
  apply (acquire_served_from_cache (H := Sample.lib) Sample.world offline msg m
           "reg.example/repo:latest" "pool/pkg.deb"
           (mkCache Sample.registry (<["pool/pkg.deb" := Sample.pkgDeb]> ∅)));
    by vm_compute.
Defined.

(** ** [acquire] *)

(** X6.  A descriptor whose digest has no colon makes [acquire] panic, once
    the blob has been fetched and written and both streams are closed:
    neither [201 URI Done] nor an error comes back. *)
Theorem acquire_digest_without_colon `{GoLib} (W : World) (msg : Message) (m : Method)
    (ociRef : Named) (title : string) (c : cacheByOCIRef) (mid : Method)
    (desc : Descriptor) (r : ReadCloser) (w : File) :
  parseURIFields msg = inr (ociRef, title) →
  doCacheStuff W (index (Fields msg) FieldURI) ociRef (parsing msg m)
    = Returns (inr c, mid) →
  fileMap c !! title = Some desc →
  Fetch (fetcher c) desc = inr r →
  os_Create W (index (Fields msg) FieldFilename) = inr w →
  io_Copy w r = None →
  File_closeErr w = None →
  rc_closeErr r = None →
  occurs colon (Digest desc) = false →
  acquire W msg m = Panics "no ':' separator in digest".
Proof.
  intros Hfields Hcache Hfile Hfetch Hcreate Hcopy Hclosew Hcloser Hdigest.
  unfold parsing in Hcache.
  unfold acquire. rewrite Hfields. unfold_bind. rewrite Hcache, Hfile, Hfetch.
  rewrite Hcreate, Hcopy, Hclosew, Hcloser.
  unfold digestMismatch, Digest_Algorithm. unfold_bind.
  apply cut_None in Hdigest. by rewrite Hdigest.
Qed.

Lemma acquire_digest_without_colon_witness :
  let msg := Sample.request "oci://reg.example/repo:latest/blob" "/tmp/blob" in
  let desc := mkDescriptor MediaTypeApplicationOctetStream "" 5 (Sample.titled "blob") in
  let m := mkMethod [] (NewMessageReader (mkBufio "" io_EOF))
             (<["reg.example/repo:latest" :=
                  mkCache Sample.registry (<["blob" := desc]> ∅)]> ∅) in
  acquire (H := Sample.lib) Sample.world msg m = Panics "no ':' separator in digest".
Proof.
  intros msg desc m.
  eapply (acquire_digest_without_colon (H := Sample.lib) Sample.world msg m
            "reg.example/repo:latest" "blob"); by vm_compute.
Defined.

(** ** The messages of one request *)

Section request_messages.
Context `{GoLib}.
Implicit Types (W : World) (m : Method) (msg : Message).





End request_messages.



(** ** The reader and the loop of [Run] *)

Section reading.
Context `{GoLib}.
Implicit Types (W : World) (m : Method) (r : MessageReader).

(** [ReadLine] hands out a message without an error only when a blank line
    ends it, and then nothing is left in progress. *)
Lemma ReadLine_complete r msg r' :
  ReadLine r = ((Some msg, None), r') → message r = Some msg ∧ message r' = None.
Proof.
  unfold ReadLine, readHeader, commitMessage.
  destruct (message r) as [cur|].
  - destruct (ReadString (reader r)) as [[line [e|]] rd']; [done|].
    destruct (String.eqb _ ""); [by intros [= <- <-]|].
    destruct (negb _); [|done].
    by destruct (ParseHeader _) as [hm [he|]].
  - destruct (ReadString (reader r)) as [[line [e|]] rd']; [done|].
    by destruct (ParseHeader line) as [hm [he|]].
Qed.

Lemma ReadMessage_loop_shape fuel errs r msg err r' :
  ReadMessage_loop fuel errs r = Some ((msg, err), r') →
  (msg = None →
     (err = Some io_EOF ∧ errs = []) ∨ ∃ errs', err = Some (errorsWhileReading errs'))
  ∧ (err = None → errs = [] ∧ is_Some msg ∧ message r' = None).
Proof.
  revert errs r. induction fuel as [|fuel IH]; intros errs r; [done|].
  cbn [ReadMessage_loop].
  destruct (ReadLine r) as [[lmsg lerr] r1] eqn:Hline.
  destruct lmsg as [lm|], lerr as [e|]; simpl.
  - destruct errs; intros [= <- <- <-]; by split.
  - apply ReadLine_complete in Hline as [_ Hnone].
    destruct errs; intros [= <- <- <-]; split; try done; intros _; by eauto.
  - destruct (is_io_EOF e) eqn:Heof.
    + destruct e; try done.
      destruct errs; intros [= <- <- <-]; split; try done; intros _; by eauto.
    + intros Hloop. apply IH in Hloop as [Hnone Hok]. split.
      * intros Hmsg. destruct (Hnone Hmsg) as [[_ Hnil]|Hagg]; [|by right].
        by destruct errs.
      * intros Herr. destruct (Hok Herr) as (Hnil & _). by destruct errs.
  - apply IH.
Qed.

End reading.

(** X8.  What [ReadMessage] can return: never neither a message nor an
    error; without a message the error is [io.EOF] itself or the aggregate of
    the errors met; without an error the message is there and no message is
    left in progress in the reader. *)
Theorem ReadMessage_result `{GoLib} (fuel : nat) (r : MessageReader)
    (msg : option Message) (err : option error) (r' : MessageReader) :
  ReadMessage fuel r = Some ((msg, err), r') →
  (msg = None → err = Some io_EOF ∨ ∃ errs, err = Some (errorsWhileReading errs))
  ∧ (err = None → is_Some msg ∧ message r' = None).
Proof.
  intros Hread. apply ReadMessage_loop_shape in Hread as [Hnone Hok]. split.
  - intros Hmsg. destruct (Hnone Hmsg) as [[-> _]|Hagg]; by eauto.
  - intros Herr. by destruct (Hok Herr) as (_ & Hmsg & Hidle).
Qed.

Lemma ReadMessage_result_witness :
  let r := NewMessageReader (mkBufio (Sample.nl +:+ "600" +:+ Sample.nl) io_EOF) in
  ∃ err r', ReadMessage (H := Sample.lib) 3 r = Some ((None, err), r')
            ∧ (err = Some io_EOF ∨ ∃ errs, err = Some (errorsWhileReading errs)).
Proof.
  intros r.
  set (res := ReadMessage (H := Sample.lib) 3 r).
  assert (ReadMessage (H := Sample.lib) 3 r = res) as Hread by reflexivity.
  vm_compute in (value of res). subst res.
  eexists _, _. split; [exact Hread|].
  by apply (ReadMessage_result (H := Sample.lib) _ _ _ _ _ Hread).
Defined.

(** X9.  [Run] never looks into a message that [ReadMessage] did not
    return: when [ReadMessage] comes back without a message, the loop ends in
    that turn, having written nothing or one [401 General Failure]. *)
Theorem Run_turn_without_message `{GoLib} (fuel : nat) (W : World) (m : Method)
    (err : option error) (r' : MessageReader) :
  ReadMessage fuel (Method_r m) = Some ((None, err), r') →
  ∃ m1, Run_turn fuel W m = Returns (Stop m1)
        ∧ (Method_w m1 = Method_w m
           ∨ ∃ text, Method_w m1 = Method_w m ++ [out_GeneralFailure text]).
Proof.
  intros Hread. unfold Run_turn. rewrite Hread.
  apply ReadMessage_loop_shape in Hread as [Hnone _].
  destruct (Hnone eq_refl) as [[-> _]|[errs ->]]; simpl.
  - eexists. split; [done|]. by left.
  - eexists. split; [done|]. right. by eexists.
Qed.

Lemma Run_turn_without_message_witness :
  let m := Sample.input ("garbage" +:+ Sample.nl) io_EOF in
  ∃ m1, Run_turn (H := Sample.lib) 2 Sample.world m = Returns (Stop m1)
        ∧ (Method_w m1 = Method_w m
           ∨ ∃ text, Method_w m1 = Method_w m ++ [out_GeneralFailure text]).
Proof.
  intros m.
  eapply (Run_turn_without_message (H := Sample.lib) 2 Sample.world m).
  vm_compute. reflexivity.
Defined.

(** X10.  On a stream that ends with [io.EOF], [ReadMessage] returns: it
    calls [ReadLine] at most once per byte left to read, and once more. *)
Theorem ReadMessage_returns_at_EOF `{GoLib} (r : MessageReader) (fuel : nat) :
  streamErr (reader r) = io_EOF →
  (String.length (unread (reader r)) < fuel)%nat →
  ∃ res, ReadMessage fuel r = Some res.
Proof. intros Heof Hfuel. by apply ReadMessage_loop_returns. Qed.

Lemma ReadMessage_returns_at_EOF_witness :
  ∃ res, ReadMessage (H := Sample.lib) 9
           (NewMessageReader (mkBufio ("600 URI" +:+ Sample.nl) io_EOF)) = Some res.
Proof.
  apply (ReadMessage_returns_at_EOF (H := Sample.lib)); [reflexivity|].
  vm_compute. lia.
Defined.

(** X11.  When the stream fails between two messages with an error other
    than [io.EOF] (a closed pipe, for one) and has no complete line left,
    [Run] does not return and writes nothing after its capabilities: no
    bound on the number of turns and lines lets the loop end. *)
Theorem Run_spins_on_stream_error `{GoLib} (W : World) (m : Method) (fuel : nat) :
  message (Method_r m) = None →
  occurs LF (unread (reader (Method_r m))) = false →
  is_io_EOF (streamErr (reader (Method_r m))) = false →
  Run fuel W m = OutOfFuel.
Proof.
  intros Hidle Hno Hnoteof. unfold Run.
  destruct fuel as [|fuel]; [done|].
  cbn [Run_loop]. unfold Run_turn, ReadMessage. simpl Method_r.
  by rewrite (ReadMessage_loop_end_spins _ _ _ Hidle Hno Hnoteof).
Qed.

Lemma Run_spins_on_stream_error_witness :
  Run (H := Sample.lib) 1000 Sample.world (Sample.input "" io_ErrClosedPipe) = OutOfFuel.
Proof.
  apply (Run_spins_on_stream_error (H := Sample.lib)); reflexivity.
Defined.

Section run_output.
Context `{GoLib}.
Implicit Types (W : World) (m : Method).



End run_output.



(** ** [ParseHeader] *)

Section header_facts.
Context `{GoLib}.

Lemma decimalValue_ge s n : (n ≤ decimalValue s n)%N.
Proof.
  revert n. induction s as [|c s IH]; intros n; simpl; [lia|].
  etransitivity; [|apply IH]. lia.
Qed.

Lemma ParseUint_digits_accepts s0 s n v :
  (n ≤ maxUint64)%N →
  ParseUint_digits s0 s n = (v, None)
  ↔ isDigits s = true ∧ decimalValue s n = v ∧ (v ≤ maxUint64)%N.
Proof.
  revert n. induction s as [|c s IH]; intros n Hn.
  - simpl. split; [intros [= <-]; by auto | intros (_ & <- & _); done].
  - cbn [ParseUint_digits isDigits decimalValue]. fold (isDigit c).
    destruct (isDigit c) eqn:Hc; [|split; [done | by intros ([=] & _)]].
    cbn [andb].
    change (maxUint64 / 10 + 1)%N with 1844674407370955162%N.
    pose proof (decimalValue_ge s (n * 10 + (N_of_ascii c - 48))%N) as Hge.
    destruct (N.leb_spec 1844674407370955162 n) as [Hcut|Hcut].
    { split; [done|]. intros (_ & <- & Hv). unfold maxUint64 in *. lia. }
    destruct (N.ltb_spec maxUint64 (n * 10 + (N_of_ascii c - 48))) as [Hover|Hfit].
    { split; [done|]. intros (_ & <- & Hv). lia. }
    by apply IH.
Qed.

(** [strconv.ParseUint(s, 10, 64)] accepts the non-empty strings of decimal
    digits that write a number up to [2^64 - 1]. *)
Lemma ParseUint_accepts s v :
  ParseUint s = (v, None)
  ↔ s ≠ "" ∧ isDigits s = true ∧ decimalValue s 0 = v ∧ (v ≤ maxUint64)%N.
Proof.
  unfold ParseUint. destruct (String.eqb_spec s "") as [->|Hne].
  - split; [done | by intros (? & _)].
  - rewrite ParseUint_digits_accepts by (unfold maxUint64; lia). tauto.
Qed.

End header_facts.

(** X13.  [ParseHeader] accepts a line exactly when, white space at the ends
    apart, it has a space, the word before the first space is a non-empty
    string of decimal digits that write a number up to [2^64 - 1], and what
    follows is not blank; the message then has that number as code, the
    trimmed rest as description and no fields.  It returns a message or an
    error, never both and never neither. *)
Theorem ParseHeader_accepts `{GoLib} (line : string) :
  (∀ m, ParseHeader line = (Some m, None)
        ↔ ∃ word rest,
            cut " "%char (strings_TrimSpace line) = Some (word, rest)
            ∧ strings_TrimSpace word ≠ ""
            ∧ isDigits (strings_TrimSpace word) = true
            ∧ (decimalValue (strings_TrimSpace word) 0 ≤ maxUint64)%N
            ∧ strings_TrimSpace rest ≠ ""
            ∧ m = mkMessage (decimalValue (strings_TrimSpace word) 0)
                            (strings_TrimSpace rest) ∅)
  ∧ (is_Some (ParseHeader line).1 ↔ (ParseHeader line).2 = None).
Proof.
  unfold ParseHeader, SplitN2.
  destruct (String.eqb_spec (strings_TrimSpace line) "") as [Hblank|Hblank].
  { split; [|by split; [intros [? [=]] | ]].
    intros m. split; [done|]. intros (word & rest & Hcut & _).
    rewrite Hblank in Hcut. done. }
  destruct (cut " "%char (strings_TrimSpace line)) as [[word rest]|] eqn:Hcut.
  2:{ split; [|by split; [intros [? [=]] | ]].
      intros m. split; [done|]. by intros (word & rest & [=] & _). }
  cbn [length Nat.eqb negb nth].
  destruct (ParseUint (strings_TrimSpace word)) as [code [e|]] eqn:Hcode.
  { split; [|by split; [intros [? [=]] | ]].
    intros m. split; [done|].
    intros (word' & rest' & [= <- <-] & Hne & Hdigits & Hmax & _).
    assert (ParseUint (strings_TrimSpace word)
            = (decimalValue (strings_TrimSpace word) 0, None)) as Hok
      by (by apply ParseUint_accepts).
    congruence. }
  apply ParseUint_accepts in Hcode as (Hne & Hdigits & Hvalue & Hmax).
  destruct (String.eqb_spec (strings_TrimSpace rest) "") as [Hdesc|Hdesc].
  { split; [|by split; [intros [? [=]] | ]].
    intros m. split; [done|].
    by intros (word' & rest' & [= <- <-] & _ & _ & _ & Hrest & _). }
  split; [|by split; [ | eexists]].
  intros m. split.
  - intros [= <-]. exists word, rest. rewrite Hvalue. by auto 10.
  - intros (word' & rest' & [= <- <-] & _ & _ & _ & _ & ->). by rewrite Hvalue.
Qed.

(** ** [NewMessage] *)

(** X14.  In the message that [NewMessage] builds, a key has the value of
    the last field given with that key, and no value when no field has
    it. *)
Theorem NewMessage_lookup (statusCode : N) (description : string)
    (fields : list Field) (k : string) :
  Fields (NewMessage statusCode description fields) !! k
  = Value <$> List.find (λ f, String.eqb (Key f) k) (rev fields).
Proof.
  unfold NewMessage. simpl Fields.
  induction fields as [|f fields IH] using rev_ind; [done|].
  rewrite fold_left_app, rev_unit. simpl.
  destruct (String.eqb_spec (Key f) k) as [<-|Hne].
  - by rewrite lookup_insert_eq.
  - by rewrite lookup_insert_ne.
Qed.

(** ** The frames of the writer *)

Lemma writes_app (a b : list string) : writes (a ++ b) = writes a +:+ writes b.
Proof.
  induction a as [|c a IH]; [done|]. simpl. by rewrite IH, append_assoc.
Qed.

Ltac frame_eq :=
  unfold frame, fieldLine, when, opt; simpl;
  rewrite ?append_assoc, ?append_nil_r; try reflexivity.

(** Each method of the writer writes its header line, a line [key: value]
    for each field it writes, and an empty line. *)
Lemma writer_frames :
  (∀ msg picks,
      WriteMessage_bytes msg picks
      = frame (fmt_d_N (StatusCode msg) +:+ " " +:+ Description msg)
          (List.filter (λ '(k, v), negb (String.eqb k "") && negb (String.eqb v ""))
                       (mapRange picks (Fields msg))))
  ∧ (∀ version caps,
      Capabilities_bytes version caps
      = frame "100 Capabilities"
          ([("Version", version)]
           ++ opt (hasCap caps CapSendConfig) "Send-Config" "true"
           ++ opt (hasCap caps CapPipeline) "Pipeline" "true"
           ++ opt (hasCap caps CapSingleInstance) "Single-Instance" "true"
           ++ opt (hasCap caps CapLocalOnly) "Local-Only" "true"
           ++ opt (hasCap caps CapNeedsCleanup) "Needs-Cleanup" "true"
           ++ opt (hasCap caps CapRemovable) "Removable" "true"
           ++ opt (hasCap caps CapAuxRequests) "AuxRequests" "true"))
  ∧ (∀ msg, Log_bytes msg = frame "101 Log" [("Message", msg)])
  ∧ (∀ msg, Status_bytes msg = frame "102 Status" [("Message", msg)])
  ∧ (∀ uri newURI altURIs usedMirror,
      Redirect_bytes uri newURI altURIs usedMirror
      = frame "103 Redirect"
          ([("URI", uri); ("New-URI", newURI)]
           ++ opt usedMirror "UsedMirror" "true"
           ++ opt (negb (String.eqb altURIs "")) "Alt-URIs" altURIs))
  ∧ (∀ msg, Warning_bytes msg = frame "104 Warning" [("Message", msg)])
  ∧ (∀ uri resumePoint size usedMirror,
      StartURI_bytes uri resumePoint size usedMirror
      = frame "200 URI Start"
          ([("URI", uri)]
           ++ opt (negb (String.eqb resumePoint "")) "Resume-Point" resumePoint
           ++ opt (0 <? size)%Z "Size" (fmt_d_Z size)
           ++ opt usedMirror "UsedMirror" "true"))
  ∧ (∀ uri filename resumePoint altIMSHit imsHit usedMirror extra,
      FinishURI_bytes uri filename resumePoint altIMSHit imsHit usedMirror extra
      = frame "201 URI Done"
          ([("URI", uri); ("Filename", filename)]
           ++ opt (negb (String.eqb resumePoint "")) "Resume-Point" resumePoint
           ++ opt imsHit "IMS-Hit" "true"
           ++ opt (negb (String.eqb altIMSHit "")) "Alt-IMS-Hit" altIMSHit
           ++ opt usedMirror "UsedMirror" "true"
           ++ map (λ s, (Key s, Value s)) extra))
  ∧ (∀ uri auxURI descShort descLong maximumSize usedMirror,
      AuxRequest_bytes uri auxURI descShort descLong maximumSize usedMirror
      = frame "351 Aux Request"
          ([("URI", uri)]
           ++ opt (negb (String.eqb auxURI "")) "Aux-URI" auxURI
           ++ opt (0 <? maximumSize)%N "MaximumSize" (fmt_d_N maximumSize)
           ++ opt (negb (String.eqb descShort "")) "Aux-ShortDesc" descShort
           ++ opt (negb (String.eqb descLong "")) "Aux-Description" descLong
           ++ opt usedMirror "UsedMirror" "true"))
  ∧ (∀ uri message failReason transientError usedMirror,
      FailedURI_bytes uri message failReason transientError usedMirror
      = frame "400 URI Failure"
          (if String.eqb uri "" then [("Message", message)]
           else [("URI", uri)]
                ++ (if transientError then [("Transient-Failure", "true")]
                    else [("FailReason", failReason)])
                ++ opt usedMirror "UsedMirror" "true"))
  ∧ (∀ msg, GeneralFailure_bytes msg = frame "401 General Failure" [("Message", msg)])
  ∧ (∀ media drive,
      MediaChange_bytes media drive
      = frame "403 Media Change" [("Media", media); ("Drive", drive)]).
Proof.
  split_and!.
  - intros msg picks. unfold WriteMessage_bytes, frame.
    rewrite !writes_app. generalize (mapRange picks (Fields msg)). intros order.
    assert (writes (flat_map (λ '(k, v),
                      when (negb (String.eqb k "") && negb (String.eqb v ""))
                           (fieldLine k v)) order)
            = writes (map (λ '(k, v), fieldLine k v)
                (List.filter (λ '(k, v), negb (String.eqb k "") && negb (String.eqb v ""))
                             order))) as ->.
    { induction order as [|[k v] order IH]; [done|].
      cbn [flat_map List.filter]. rewrite writes_app, IH.
      destruct (negb (String.eqb k "") && negb (String.eqb v "")); [|done].
      simpl. by rewrite append_nil_r. }
    simpl. by rewrite !append_assoc.
  - intros version caps. unfold Capabilities_bytes.
    destruct (hasCap caps CapSendConfig), (hasCap caps CapPipeline),
      (hasCap caps CapSingleInstance), (hasCap caps CapLocalOnly),
      (hasCap caps CapNeedsCleanup), (hasCap caps CapRemovable),
      (hasCap caps CapAuxRequests); frame_eq.
  - intros msg. unfold Log_bytes. frame_eq.
  - intros msg. unfold Status_bytes. frame_eq.
  - intros uri newURI altURIs usedMirror. unfold Redirect_bytes.
    destruct usedMirror, (negb (String.eqb altURIs "")); frame_eq.
  - intros msg. unfold Warning_bytes. frame_eq.
  - intros uri resumePoint size usedMirror. unfold StartURI_bytes.
    destruct (negb (String.eqb resumePoint "")), (0 <? size)%Z, usedMirror; frame_eq.
  - intros uri filename resumePoint altIMSHit imsHit usedMirror extra.
    unfold FinishURI_bytes, frame.
    rewrite !map_app, map_map, !writes_app.
    destruct (negb (String.eqb resumePoint "")), imsHit,
      (negb (String.eqb altIMSHit "")), usedMirror;
      unfold fieldLine, when, opt; simpl;
      rewrite ?append_assoc, ?append_nil_r; reflexivity.
  - intros uri auxURI descShort descLong maximumSize usedMirror.
    unfold AuxRequest_bytes.
    destruct (negb (String.eqb auxURI "")), (0 <? maximumSize)%N,
      (negb (String.eqb descShort "")), (negb (String.eqb descLong "")), usedMirror;
      frame_eq.
  - intros uri message failReason transientError usedMirror. unfold FailedURI_bytes.
    destruct (String.eqb uri ""), transientError, usedMirror; frame_eq.
  - intros msg. unfold GeneralFailure_bytes. frame_eq.
  - intros media drive. unfold MediaChange_bytes. frame_eq.
Qed.

(** ** White space at the ends of ASCII text *)

Section trim_facts.
Implicit Types (s a w : string) (c : ascii).

Lemma isASCII_append a b : isASCII (a +:+ b) = isASCII a && isASCII b.
Proof.
  induction a as [|c a IH]; [done|].
  rewrite append_cons. simpl. by rewrite IH, andb_assoc.
Qed.

Lemma trimLeft_head a : headOK a = true → trimLeft a = a.
Proof.
  destruct a as [|c a]; [done|]. simpl.
  by intros ->%negb_true_iff.
Qed.

Lemma trimLeft_spaces w a :
  forallb asciiSpace (list_ascii_of_string w) = true →
  headOK a = true →
  trimLeft (w +:+ a) = a.
Proof.
  intros Hw Ha. induction w as [|c w IH]; [by apply trimLeft_head|].
  rewrite append_cons. simpl in *.
  apply andb_prop in Hw as [-> Hw]. by apply IH.
Qed.

Lemma trimRight_spaces w :
  forallb asciiSpace (list_ascii_of_string w) = true → trimRight w = "".
Proof.
  induction w as [|c w IH]; [done|]. simpl.
  intros [Hc Hw]%andb_prop. by rewrite (IH Hw), Hc.
Qed.

Lemma trimRight_last a w :
  lastOK a = true →
  forallb asciiSpace (list_ascii_of_string w) = true →
  trimRight (a +:+ w) = a.
Proof.
  intros Ha Hw. induction a as [|c a IH]; [by apply trimRight_spaces|].
  rewrite append_cons. cbn [trimRight].
  destruct a as [|d a].
  - rewrite append_nil_l, (trimRight_spaces w Hw).
    simpl in Ha. by apply negb_true_iff in Ha as ->.
  - rewrite IH by done. done.
Qed.

(** Text with no white space at its ends, with white space put before and
    after, trims to the text. *)
Lemma asciiTrim_padded w1 a w2 :
  headOK a = true → lastOK a = true →
  forallb asciiSpace (list_ascii_of_string w1) = true →
  forallb asciiSpace (list_ascii_of_string w2) = true →
  asciiTrim (w1 +:+ a +:+ w2) = a.
Proof.
  intros Hh Hl Hw1 Hw2. unfold asciiTrim.
  destruct a as [|c a].
  - rewrite append_nil_l.
    assert (trimLeft (w1 +:+ w2) = "") as ->; [|done].
    clear Hh Hl. induction w1 as [|d w1 IH].
    + rewrite append_nil_l. induction w2 as [|d w2 IH]; [done|].
      simpl in *. apply andb_prop in Hw2 as [-> Hw2]. by apply IH.
    + rewrite append_cons. simpl in *.
      apply andb_prop in Hw1 as [-> Hw1]. by apply IH.
  - rewrite trimLeft_spaces; [by apply trimRight_last | done | done].
Qed.

Lemma asciiTrim_plain a : headOK a = true → lastOK a = true → asciiTrim a = a.
Proof.
  intros Hh Hl.
  rewrite <- (asciiTrim_padded "" a "") at 2 by done.
  by rewrite append_nil_l, append_nil_r.
Qed.

Lemma lastOK_append a b : b ≠ "" → lastOK (a +:+ b) = lastOK b.
Proof.
  intros Hb. induction a as [|c a IH]; [done|].
  rewrite append_cons. cbn [lastOK]. rewrite IH.
  destruct (a +:+ b) eqn:Hab; [|done].
  destruct a, b; done.
Qed.

Lemma headOK_append a b : a ≠ "" → headOK (a +:+ b) = headOK a.
Proof. intros Ha. by destruct a. Qed.

End trim_facts.

(** ** Decimal numbers *)

Section decimal_facts.

Lemma decimalValue_of_uint_acc (d : Decimal.uint) (acc : positive) :
  decimalValue (NilEmpty.string_of_uint d) (Npos acc) = Npos (Pos.of_uint_acc d acc).
Proof.
  revert acc. induction d as [|d IH|d IH|d IH|d IH|d IH|d IH|d IH|d IH|d IH|d IH];
    intros acc; [done|..];
    cbn [NilEmpty.string_of_uint decimalValue Pos.of_uint_acc];
    rewrite <- IH; f_equal; cbn [N_of_ascii]; simpl; lia.
Qed.

Lemma decimalValue_of_uint (d : Decimal.uint) :
  decimalValue (NilEmpty.string_of_uint d) 0 = Pos.of_uint d.
Proof.
  induction d as [|d IH|d IH|d IH|d IH|d IH|d IH|d IH|d IH|d IH|d IH];
    [done| exact IH |..];
    cbn [NilEmpty.string_of_uint decimalValue Pos.of_uint];
    rewrite <- decimalValue_of_uint_acc; f_equal.
Qed.

Lemma isDigits_of_uint (d : Decimal.uint) :
  isDigits (NilEmpty.string_of_uint d) = true.
Proof. induction d; simpl; done. Qed.

Lemma fmt_d_N_digits (n : N) :
  fmt_d_N n ≠ "" ∧ isDigits (fmt_d_N n) = true ∧ decimalValue (fmt_d_N n) 0 = n.
Proof.
  unfold fmt_d_N.
  assert (NilZero.string_of_uint (N.to_uint n) = NilEmpty.string_of_uint (N.to_uint n)
          ∧ N.to_uint n ≠ Decimal.Nil) as [-> Hnil].
  { destruct n as [|p]; [done|]. simpl.
    pose proof (DecimalPos.Unsigned.to_uint_nonnil p) as Hp.
    by destruct (Pos.to_uint p). }
  split; [by destruct (N.to_uint n)|]. split; [apply isDigits_of_uint|].
  rewrite decimalValue_of_uint. apply DecimalN.Unsigned.of_to.
Qed.

End decimal_facts.

(** ** What the writer writes, the reader reads *)

Section digit_facts.

Lemma isDigit_char c :
  isDigit c = true →
  (N_of_ascii c <? 128)%N = true ∧ Ascii.eqb c LF = false
  ∧ Ascii.eqb c " "%char = false ∧ asciiSpace c = false.
Proof.
  destruct c as [[|] [|] [|] [|] [|] [|] [|] [|]]; vm_compute; by intros.
Qed.

Lemma isDigits_plain s :
  isDigits s = true →
  isASCII s = true ∧ occurs LF s = false ∧ occurs " "%char s = false
  ∧ headOK s = true ∧ lastOK s = true.
Proof.
  induction s as [|c s IH]; [done|].
  cbn [isDigits]. intros [Hc Hs]%andb_prop.
  destruct (IH Hs) as (Ha & Hl & Hsp & Hh & Hlast).
  destruct (isDigit_char c Hc) as (Hc1 & Hc2 & Hc3 & Hc4).
  split_and!.
  - cbn [isASCII]. by rewrite Hc1, Ha.
  - cbn [occurs]. by rewrite Hc2.
  - cbn [occurs]. by rewrite Hc3.
  - cbn [headOK]. by rewrite Hc4.
  - cbn [lastOK]. rewrite Hc4. by destruct s.
Qed.

End digit_facts.

Section framing.
Context `{GoLib}.
Hypothesis law : TrimSpaceOnASCII.

Lemma TrimSpace_line a :
  isASCII a = true → headOK a = true → lastOK a = true →
  strings_TrimSpace (a +:+ nl) = a.
Proof.
  intros Ha Hh Hl. rewrite law by (by rewrite isASCII_append, Ha).
  exact (asciiTrim_padded "" a nl Hh Hl eq_refl eq_refl).
Qed.

Lemma TrimSpace_plain a :
  isASCII a = true → headOK a = true → lastOK a = true → strings_TrimSpace a = a.
Proof. intros Ha Hh Hl. rewrite law by done. by apply asciiTrim_plain. Qed.

Lemma ReadString_line line rest e :
  occurs LF line = false →
  ReadString (mkBufio (line +:+ nl +:+ rest) e) = ((line +:+ nl, None), mkBufio rest e).
Proof.
  intros Hno. unfold ReadString. cbn [unread streamErr].
  change (nl +:+ rest) with (String LF rest). by rewrite (cut_append LF line rest Hno).
Qed.

(** the header line of a frame parses to its code and its description *)
Lemma ParseHeader_written code desc :
  (code ≤ maxUint64)%N → plainText desc → desc ≠ "" →
  ParseHeader ((fmt_d_N code +:+ " " +:+ desc) +:+ nl)
  = (Some (mkMessage code desc ∅), None).
Proof.
  intros Hmax (Hda & Hdl & Hdh & Hdlast) Hdesc.
  destruct (fmt_d_N_digits code) as (Hne & Hdig & Hval).
  destruct (isDigits_plain _ Hdig) as (Hca & Hcl & Hcsp & Hch & Hclast).
  set (word := fmt_d_N code) in *.
  assert (strings_TrimSpace ((word +:+ " " +:+ desc) +:+ nl) = word +:+ " " +:+ desc)
    as Htrim.
  { apply TrimSpace_line.
    - by rewrite !isASCII_append, Hca, Hda.
    - by rewrite headOK_append.
    - rewrite <- append_assoc. by rewrite lastOK_append. }
  unfold ParseHeader. rewrite Htrim.
  assert (String.eqb (word +:+ " " +:+ desc) "" = false) as ->.
  { apply String.eqb_neq. by destruct word. }
  unfold SplitN2. change (" " +:+ desc) with (String " "%char desc).
  rewrite (cut_append _ word desc Hcsp). cbn [length Nat.eqb negb nth].
  rewrite (TrimSpace_plain word) by done.
  assert (ParseUint word = (code, None)) as ->.
  { apply ParseUint_accepts. by rewrite Hval. }
  rewrite (TrimSpace_plain desc) by done.
  apply String.eqb_neq in Hdesc. by rewrite Hdesc.
Qed.

(** a line [key: value] of a frame adds the field to the message in
    progress *)
Lemma ReadLine_field cur k v rest e :
  plainKey k → plainText v →
  ReadLine (mkReader (mkBufio (fieldLine k v +:+ rest) e) (Some cur))
  = ((None, None),
     mkReader (mkBufio rest e)
       (Some (mkMessage (StatusCode cur) (Description cur) (<[k := v]> (Fields cur))))).
Proof.
  intros [(Hka & Hkl & Hkh & Hklast) Hkc] (Hva & Hvl & Hvh & Hvlast).
  assert (fieldLine k v +:+ rest = (k +:+ ": " +:+ v) +:+ nl +:+ rest) as ->.
  { unfold fieldLine. by rewrite !append_assoc. }
  unfold ReadLine. cbn [message reader].
  rewrite ReadString_line by (by rewrite !occurs_append, Hkl, Hvl).
  assert (headOK (k +:+ ":") = true) as Hhead.
  { destruct k; [done|]. by rewrite headOK_append. }
  assert (∃ after, strings_TrimSpace ((k +:+ ": " +:+ v) +:+ nl) = k +:+ String colon after
                   ∧ strings_TrimSpace after = v) as (after & -> & Hafter).
  { destruct (decide (v = "")) as [->|Hv].
    - exists "". split; [|by rewrite law].
      rewrite law by (by rewrite !isASCII_append, Hka).
      assert ((k +:+ ": " +:+ "") +:+ nl = "" +:+ (k +:+ ":") +:+ (" " +:+ nl)) as ->.
      { by rewrite !append_assoc. }
      apply asciiTrim_padded; [done| |done..].
      by rewrite lastOK_append.
    - exists (" " +:+ v). split.
      + change (k +:+ String colon (" " +:+ v)) with (k +:+ ": " +:+ v).
        apply TrimSpace_line.
        * by rewrite !isASCII_append, Hka, Hva.
        * destruct k; [done|]. by rewrite headOK_append.
        * rewrite <- append_assoc. by rewrite lastOK_append.
      + rewrite law by (by rewrite isASCII_append, Hva).
        rewrite <- (append_nil_r v) at 1.
        exact (asciiTrim_padded " " v "" Hvh Hvlast eq_refl eq_refl). }
  assert (String.eqb (k +:+ String colon after) "" = false) as ->.
  { apply String.eqb_neq. by destruct k. }
  unfold SplitN2.
  rewrite (cut_append _ k after Hkc). cbn [length Nat.eqb negb nth].
  by rewrite (TrimSpace_plain k), Hafter.
Qed.

(** the empty line of a frame ends the message in progress *)
Lemma ReadLine_blank cur rest e :
  ReadLine (mkReader (mkBufio (nl +:+ rest) e) (Some cur))
  = ((Some cur, None), mkReader (mkBufio rest e) None).
Proof.
  unfold ReadLine. cbn [message reader].
  change (nl +:+ rest) with ("" +:+ nl +:+ rest).
  rewrite (ReadString_line "" rest e eq_refl).
  assert (strings_TrimSpace ("" +:+ nl) = "") as ->; [|done].
  by rewrite law.
Qed.

Lemma ReadMessage_loop_fields kvs fuel cur rest e :
  Forall fieldOK kvs →
  (length kvs < fuel)%nat →
  ReadMessage_loop fuel []
    (mkReader (mkBufio (writes (map (λ '(k, v), fieldLine k v) kvs ++ [nl]) +:+ rest) e)
              (Some cur))
  = Some ((Some (mkMessage (StatusCode cur) (Description cur)
                   (fold_left (λ m '(k, v), <[k := v]> m) kvs (Fields cur))), None),
          mkReader (mkBufio rest e) None).
Proof.
  revert fuel cur. induction kvs as [|[k v] kvs IH]; intros fuel cur Hok Hlen.
  - destruct fuel as [|fuel]; [simpl in Hlen; lia|].
    cbn [ReadMessage_loop map app writes fold_left].
    rewrite append_nil_r, ReadLine_blank. by destruct cur.
  - destruct fuel as [|fuel]; [simpl in Hlen; lia|].
    apply Forall_cons in Hok as [[Hk Hv] Hok].
    cbn [ReadMessage_loop map app writes fold_left].
    rewrite append_assoc, ReadLine_field by done.
    rewrite IH; [done | done | simpl in Hlen; lia].
Qed.

(** A frame whose header line is a code and a description and whose fields
    are plain reads back as the message of that code, description and
    fields, and the reader is left before what follows the frame. *)
Lemma ReadMessage_frame code desc kvs rest e fuel :
  (code ≤ maxUint64)%N → plainText desc → desc ≠ "" →
  Forall fieldOK kvs →
  (length kvs + 2 ≤ fuel)%nat →
  ReadMessage fuel
    (mkReader (mkBufio (frame (fmt_d_N code +:+ " " +:+ desc) kvs +:+ rest) e) None)
  = Some ((Some (mkMessage code desc (fieldMap kvs)), None),
          mkReader (mkBufio rest e) None).
Proof.
  intros Hmax Hdesc Hne Hok Hlen.
  destruct fuel as [|fuel]; [lia|].
  unfold ReadMessage. cbn [ReadMessage_loop].
  assert (occurs LF (fmt_d_N code +:+ " " +:+ desc) = false) as Hno.
  { destruct (fmt_d_N_digits code) as (_ & Hdig & _).
    destruct (isDigits_plain _ Hdig) as (_ & Hcl & _).
    destruct Hdesc as (_ & Hdl & _). by rewrite !occurs_append, Hcl, Hdl. }
  assert (ReadLine
            (mkReader (mkBufio (frame (fmt_d_N code +:+ " " +:+ desc) kvs +:+ rest) e) None)
          = ((None, None),
             mkReader (mkBufio (writes (map (λ '(k, v), fieldLine k v) kvs ++ [nl])
                                +:+ rest) e)
                      (Some (mkMessage code desc ∅)))) as ->.
  { assert (frame (fmt_d_N code +:+ " " +:+ desc) kvs +:+ rest
            = (fmt_d_N code +:+ " " +:+ desc) +:+ nl
              +:+ (writes (map (λ '(k, v), fieldLine k v) kvs ++ [nl]) +:+ rest)) as ->.
    { unfold frame. rewrite writes_app. cbn [writes].
      by rewrite append_nil_r, !append_assoc. }
    unfold ReadLine, readHeader. cbn [message reader].
    rewrite ReadString_line by done.
    by rewrite ParseHeader_written. }
  rewrite (ReadMessage_loop_fields kvs fuel (mkMessage code desc ∅)); [done|done|lia].
Qed.

Lemma readsBack_frame code desc kvs :
  (code ≤ maxUint64)%N → plainText desc → desc ≠ "" →
  Forall fieldOK kvs →
  readsBack (frame (fmt_d_N code +:+ " " +:+ desc) kvs)
            (mkMessage code desc (fieldMap kvs)).
Proof.
  intros Hmax Hdesc Hne Hok. exists (length kvs + 2)%nat.
  intros rest e fuel Hfuel. by apply ReadMessage_frame.
Qed.

End framing.

Section field_facts.

Lemma Forall_opt b k v : (b = true → fieldOK (k, v)) → Forall fieldOK (opt b k v).
Proof. intros Hok. destruct b; [|done]. apply Forall_singleton. by apply Hok. Qed.

Lemma fmt_d_N_plain n : plainText (fmt_d_N n).
Proof.
  destruct (fmt_d_N_digits n) as (_ & Hdig & _).
  destruct (isDigits_plain _ Hdig) as (? & ? & _ & ? & ?). by repeat split.
Qed.

Lemma fmt_d_Z_plain z : (0 <? z)%Z = true → plainText (fmt_d_Z z).
Proof.
  intros Hz. destruct z as [|p|p]; [done| |done].
  apply (fmt_d_N_plain (Npos p)).
Qed.

End field_facts.

Section range_facts.

Lemma pick_Some {A} i (l : list A) :
  l ≠ [] → ∃ x others, pick i l = Some (x, others) ∧ l ≡ₚ x :: others.
Proof.
  intros Hne. unfold pick.
  assert (i `mod` length l < length l)%nat as Hlt.
  { apply Nat.mod_upper_bound. by destruct l. }
  destruct (lookup_lt_is_Some_2 _ _ Hlt) as [x Hx]. rewrite Hx.
  eexists _, _. split; [done|].
  rewrite <- (take_drop_middle l _ x Hx) at 1.
  by rewrite Permutation_middle.
Qed.

(** Go's range takes every entry once. *)
Lemma taken_perm {A} n picks (l : list A) : length l = n → taken n picks l ≡ₚ l.
Proof.
  revert picks l. induction n as [|n IH]; intros picks l Hlen.
  - by destruct l.
  - destruct (pick_Some (hd 0%nat picks) l) as (x & others & Hpick & Hperm).
    { by destruct l. }
    cbn [taken]. rewrite Hpick, IH, Hperm; [done|].
    apply Permutation_length in Hperm. simpl in Hperm. lia.
Qed.

Lemma mapRange_perm picks (fields : gmap string string) :
  mapRange picks fields ≡ₚ map_to_list fields.
Proof. by apply taken_perm. Qed.

(** and it can take them in any order *)
Lemma taken_any {A} (l l' : list A) :
  l' ≡ₚ l → ∃ picks, taken (length l) picks l = l'.
Proof.
  revert l. induction l' as [|x l' IH]; intros l Hperm.
  { apply Permutation_nil in Hperm. subst l. by exists []. }
  assert (x ∈ l) as Hx by (rewrite <- Hperm; by left).
  apply list_elem_of_lookup_1 in Hx as [j Hj].
  pose proof (lookup_lt_Some _ _ _ Hj) as Hlt.
  assert (l ≡ₚ x :: (take j l ++ drop (S j) l)) as Hsplit.
  { rewrite <- (take_drop_middle l j x Hj) at 1. by rewrite Permutation_middle. }
  destruct (IH (take j l ++ drop (S j) l)) as [picks Hpicks].
  { apply (Permutation_cons_inv (a := x)). by rewrite Hperm. }
  exists (j :: picks).
  assert (length l = S (length (take j l ++ drop (S j) l))) as Hlen.
  { by rewrite (Permutation_length Hsplit). }
  rewrite Hlen at 1. cbn [taken hd tl]. unfold pick.
  rewrite Nat.mod_small by done.
  by rewrite Hj, Hpicks.
Qed.

Lemma mapRange_any (fields : gmap string string) (order : list (string * string)) :
  order ≡ₚ map_to_list fields → ∃ picks, mapRange picks fields = order.
Proof. apply taken_any. Qed.

Lemma NoDup_fst_filter {A B} (P : A * B → bool) (l : list (A * B)) :
  NoDup l.*1 → NoDup (List.filter P l).*1.
Proof.
  induction l as [|x l IH]; [done|]. cbn [List.filter fmap list_fmap].
  intros [Hx Hl]%NoDup_cons. destruct (P x); [|by apply IH].
  cbn [fmap list_fmap]. apply NoDup_cons. split; [|by apply IH].
  intros (y & Hy & Hin)%list_elem_of_fmap. apply Hx.
  apply list_elem_of_fmap. exists y. split; [done|].
  apply list_elem_of_In. apply list_elem_of_In, filter_In in Hin. tauto.
Qed.

(** Inserting fields with distinct keys one after the other gives the map
    of these fields. *)
Lemma fieldMap_lookup (l : list (string * string)) k v :
  NoDup l.*1 → fieldMap l !! k = Some v ↔ (k, v) ∈ l.
Proof.
  unfold fieldMap. induction l as [|[k0 v0] l IH] using rev_ind; intros Hnd.
  { simpl. rewrite lookup_empty. split; [done|]. by intros ?%elem_of_nil. }
  rewrite fmap_app in Hnd. apply NoDup_app in Hnd as (Hl & Hfresh & _).
  rewrite fold_left_app. cbn [fold_left]. rewrite elem_of_app, list_elem_of_singleton.
  destruct (decide (k = k0)) as [->|Hne].
  - rewrite lookup_insert_eq. split.
    + intros [= ->]. by right.
    + intros [Hin|[= ->]]; [|done]. exfalso.
      apply (Hfresh k0); [|by left].
      apply list_elem_of_fmap. by exists (k0, v).
  - rewrite lookup_insert_ne by done. rewrite IH by done. split; [by left|].
    intros [Hin|[= -> _]]; done.
Qed.

(** Whatever the order of the range, the fields written are those of the
    message that have a key and a value. *)
Lemma fieldMap_written picks (fields : gmap string string) :
  fieldMap (List.filter written (mapRange picks fields))
  = filter (λ kv, kv.1 ≠ "" ∧ kv.2 ≠ "") fields.
Proof.
  apply map_eq. intros k. apply option_eq. intros v.
  rewrite fieldMap_lookup.
  2:{ apply NoDup_fst_filter. rewrite mapRange_perm. apply NoDup_fst_map_to_list. }
  rewrite map_lookup_filter_Some, list_elem_of_In, filter_In, <- list_elem_of_In.
  rewrite mapRange_perm, elem_of_map_to_list.
  unfold written. cbn [fst snd].
  by rewrite andb_true_iff, !negb_true_iff, !String.eqb_neq.
Qed.

End range_facts.

(** X15.  What [WriteMessage] writes, [ReadMessage] reads back, whatever the
    order in which Go ranges over the fields: for a message with a status
    code of 64 bits, a description that is not empty, and plain text (ASCII,
    no line feed, no white space at the ends, no colon in a key) in the
    description and in the fields that have a key and a value, reading the
    bytes gives the message with just these fields, and leaves the reader
    before what follows.  [strings.TrimSpace] is taken to do on ASCII text
    what its table of ASCII white space says. *)
Theorem WriteMessage_ReadMessage `{GoLib} (msg : Message) (picks : list nat)
    (rest : string) (e : error) (fuel : nat) :
  TrimSpaceOnASCII →
  (StatusCode msg ≤ maxUint64)%N →
  plainText (Description msg) →
  Description msg ≠ "" →
  (∀ k v, Fields msg !! k = Some v → k ≠ "" → v ≠ "" → plainKey k ∧ plainText v) →
  (size (Fields msg) + 2 ≤ fuel)%nat →
  ReadMessage fuel (NewMessageReader (mkBufio (WriteMessage_bytes msg picks +:+ rest) e))
  = Some ((Some (mkMessage (StatusCode msg) (Description msg)
                   (filter (λ kv, kv.1 ≠ "" ∧ kv.2 ≠ "") (Fields msg))), None),
          mkReader (mkBufio rest e) None).
Proof.
  intros law Hcode Hdesc Hne Hfields Hfuel.
  rewrite (proj1 writer_frames msg picks).
  change (λ '(k, v), negb (String.eqb k "") && negb (String.eqb v ""))
    with written.
  rewrite <- (fieldMap_written picks (Fields msg)).
  apply (ReadMessage_frame law); [done..| |].
  - apply Forall_forall. intros [k v] Hin.
    apply list_elem_of_In, filter_In in Hin as [Hin Hw].
    apply list_elem_of_In in Hin. rewrite mapRange_perm in Hin.
    apply elem_of_map_to_list in Hin.
    unfold written in Hw.
    apply andb_true_iff in Hw as [Hk Hv].
    apply negb_true_iff, String.eqb_neq in Hk, Hv.
    by apply Hfields.
  - pose proof (filter_length_le written (mapRange picks (Fields msg))) as Hle.
    pose proof (Permutation_length (mapRange_perm picks (Fields msg))) as Hlen.
    rewrite length_map_to_list in Hlen. lia.
Qed.

Lemma WriteMessage_ReadMessage_witness :
  let msg :=
    mkMessage 102 "Status"
      (<[FieldURI := "oci://reg.example/repo:latest/Packages"]>
         (<[FieldMessage := "Building file map"]> (<["Empty" := ""]> ∅))) in
  ReadMessage (H := AsciiSample.lib) 5
    (NewMessageReader
       (mkBufio (WriteMessage_bytes msg [1%nat] +:+ "600 URI Acquire") io_EOF))
  = Some ((Some (mkMessage 102 "Status"
                   (filter (λ kv, kv.1 ≠ "" ∧ kv.2 ≠ "") (Fields msg))), None),
          mkReader (mkBufio "600 URI Acquire" io_EOF) None).
Proof.
  intros msg.
  apply (WriteMessage_ReadMessage (H := AsciiSample.lib) msg [1%nat]).
  - intros s _. reflexivity.
  - by vm_compute.
  - by repeat split.
  - done.
  - intros k v Hkv _ _. apply elem_of_map_to_list in Hkv. vm_compute in Hkv.
    repeat (apply elem_of_cons in Hkv as [[= -> ->]|Hkv]); [by repeat split..|].
    by apply elem_of_nil in Hkv.
  - vm_compute. lia.
Defined.

Ltac plain_fields :=
  repeat first
    [ apply Forall_nil_2
    | apply Forall_cons; split
    | apply Forall_app; split
    | apply Forall_opt; intros ? ];
  try (split; cbn [fst snd];
       [ by repeat split
       | first [ assumption | by repeat split | by apply fmt_d_Z_plain
               | by apply fmt_d_N_plain ] ]).

(** X16.  What the other methods of the writer write, [ReadMessage] reads
    back: with plain text (ASCII, no line feed, no white space at the ends)
    in their arguments, the bytes of each read as the message of its code and
    description with the fields it writes, a later field of a name taking the
    place of an earlier one.  [strings.TrimSpace] is taken to do on ASCII
    text what its table of ASCII white space says. *)
Theorem writers_read_back `{GoLib} :
  TrimSpaceOnASCII →
  (∀ version caps,
      plainText version →
      readsBack (Capabilities_bytes version caps)
        (mkMessage 100 "Capabilities"
           (fieldMap ([("Version", version)]
                      ++ opt (hasCap caps CapSendConfig) "Send-Config" "true"
                      ++ opt (hasCap caps CapPipeline) "Pipeline" "true"
                      ++ opt (hasCap caps CapSingleInstance) "Single-Instance" "true"
                      ++ opt (hasCap caps CapLocalOnly) "Local-Only" "true"
                      ++ opt (hasCap caps CapNeedsCleanup) "Needs-Cleanup" "true"
                      ++ opt (hasCap caps CapRemovable) "Removable" "true"
                      ++ opt (hasCap caps CapAuxRequests) "AuxRequests" "true"))))
  ∧ (∀ msg, plainText msg →
      readsBack (Log_bytes msg) (mkMessage 101 "Log" (fieldMap [("Message", msg)])))
  ∧ (∀ msg, plainText msg →
      readsBack (Status_bytes msg) (mkMessage 102 "Status" (fieldMap [("Message", msg)])))
  ∧ (∀ uri newURI altURIs usedMirror,
      plainText uri → plainText newURI → plainText altURIs →
      readsBack (Redirect_bytes uri newURI altURIs usedMirror)
        (mkMessage 103 "Redirect"
           (fieldMap ([("URI", uri); ("New-URI", newURI)]
                      ++ opt usedMirror "UsedMirror" "true"
                      ++ opt (negb (String.eqb altURIs "")) "Alt-URIs" altURIs))))
  ∧ (∀ msg, plainText msg →
      readsBack (Warning_bytes msg)
        (mkMessage 104 "Warning" (fieldMap [("Message", msg)])))
  ∧ (∀ uri resumePoint size usedMirror,
      plainText uri → plainText resumePoint →
      readsBack (StartURI_bytes uri resumePoint size usedMirror)
        (mkMessage 200 "URI Start"
           (fieldMap ([("URI", uri)]
                      ++ opt (negb (String.eqb resumePoint "")) "Resume-Point" resumePoint
                      ++ opt (0 <? size)%Z "Size" (fmt_d_Z size)
                      ++ opt usedMirror "UsedMirror" "true"))))
  ∧ (∀ uri filename resumePoint altIMSHit imsHit usedMirror extra,
      plainText uri → plainText filename → plainText resumePoint →
      plainText altIMSHit →
      Forall (λ s, plainKey (Key s) ∧ plainText (Value s)) extra →
      readsBack
        (FinishURI_bytes uri filename resumePoint altIMSHit imsHit usedMirror extra)
        (mkMessage 201 "URI Done"
           (fieldMap ([("URI", uri); ("Filename", filename)]
                      ++ opt (negb (String.eqb resumePoint "")) "Resume-Point" resumePoint
                      ++ opt imsHit "IMS-Hit" "true"
                      ++ opt (negb (String.eqb altIMSHit "")) "Alt-IMS-Hit" altIMSHit
                      ++ opt usedMirror "UsedMirror" "true"
                      ++ map (λ s, (Key s, Value s)) extra))))
  ∧ (∀ uri auxURI descShort descLong maximumSize usedMirror,
      plainText uri → plainText auxURI → plainText descShort → plainText descLong →
      readsBack (AuxRequest_bytes uri auxURI descShort descLong maximumSize usedMirror)
        (mkMessage 351 "Aux Request"
           (fieldMap ([("URI", uri)]
                      ++ opt (negb (String.eqb auxURI "")) "Aux-URI" auxURI
                      ++ opt (0 <? maximumSize)%N "MaximumSize" (fmt_d_N maximumSize)
                      ++ opt (negb (String.eqb descShort "")) "Aux-ShortDesc" descShort
                      ++ opt (negb (String.eqb descLong "")) "Aux-Description" descLong
                      ++ opt usedMirror "UsedMirror" "true"))))
  ∧ (∀ uri message failReason transientError usedMirror,
      plainText uri → plainText message → plainText failReason →
      readsBack (FailedURI_bytes uri message failReason transientError usedMirror)
        (mkMessage 400 "URI Failure"
           (fieldMap (if String.eqb uri "" then [("Message", message)]
                      else [("URI", uri)]
                           ++ (if transientError then [("Transient-Failure", "true")]
                               else [("FailReason", failReason)])
                           ++ opt usedMirror "UsedMirror" "true"))))
  ∧ (∀ msg, plainText msg →
      readsBack (GeneralFailure_bytes msg)
        (mkMessage 401 "General Failure" (fieldMap [("Message", msg)])))
  ∧ (∀ media drive, plainText media → plainText drive →
      readsBack (MediaChange_bytes media drive)
        (mkMessage 403 "Media Change"
           (fieldMap [("Media", media); ("Drive", drive)]))).
Proof.
  intros law.
  destruct writer_frames
    as (_ & HCap & HLog & HStatus & HRedirect & HWarning & HStart & HFinish & HAux
        & HFailed & HGeneral & HMedia).
  split_and!.
  - intros version caps Hversion. rewrite HCap.
    apply (readsBack_frame law 100 "Capabilities"); [done | by repeat split | done |].
    plain_fields.
  - intros msg Hmsg. rewrite HLog.
    apply (readsBack_frame law 101 "Log"); [done | by repeat split | done |].
    plain_fields.
  - intros msg Hmsg. rewrite HStatus.
    apply (readsBack_frame law 102 "Status"); [done | by repeat split | done |].
    plain_fields.
  - intros uri newURI altURIs usedMirror Huri Hnew Halt. rewrite HRedirect.
    apply (readsBack_frame law 103 "Redirect"); [done | by repeat split | done |].
    plain_fields.
  - intros msg Hmsg. rewrite HWarning.
    apply (readsBack_frame law 104 "Warning"); [done | by repeat split | done |].
    plain_fields.
  - intros uri resumePoint size usedMirror Huri Hresume. rewrite HStart.
    apply (readsBack_frame law 200 "URI Start"); [done | by repeat split | done |].
    plain_fields.
  - intros uri filename resumePoint altIMSHit imsHit usedMirror extra
      Huri Hfile Hresume Halt Hextra.
    rewrite HFinish.
    apply (readsBack_frame law 201 "URI Done"); [done | by repeat split | done |].
    plain_fields.
    clear -Hextra. induction Hextra as [|f extra Hf Hextra IH]; [by constructor|].
    cbn [map]. by constructor.
  - intros uri auxURI descShort descLong maximumSize usedMirror Huri Haux Hshort Hlong.
    rewrite HAux.
    apply (readsBack_frame law 351 "Aux Request"); [done | by repeat split | done |].
    plain_fields.
  - intros uri message failReason transientError usedMirror Huri Hmessage Hreason.
    rewrite HFailed.
    apply (readsBack_frame law 400 "URI Failure"); [done | by repeat split | done |].
    destruct (String.eqb uri ""), transientError; plain_fields.
  - intros msg Hmsg. rewrite HGeneral.
    apply (readsBack_frame law 401 "General Failure"); [done | by repeat split | done |].
    plain_fields.
  - intros media drive Hmedia Hdrive. rewrite HMedia.
    apply (readsBack_frame law 403 "Media Change"); [done | by repeat split | done |].
    plain_fields.
Qed.

Lemma writers_read_back_witness :
  readsBack (H := AsciiSample.lib)
    (StartURI_bytes "oci://reg.example/repo:latest/Packages" "" 5 false)
    (mkMessage 200 "URI Start"
       (fieldMap [("URI", "oci://reg.example/repo:latest/Packages"); ("Size", "5")])).
Proof.
  destruct (writers_read_back (H := AsciiSample.lib)) as (_ & _ & _ & _ & _ & Hstart & _).
  { intros s _. reflexivity. }
  apply (Hstart "oci://reg.example/repo:latest/Packages" "" 5%Z false); by repeat split.
Defined.

(** ** [buildFileMap] among the goroutines of [images.Dispatch] *)

Section dispatch_facts.
Context `{GoLib}.
Variable fetcher : Fetcher.

Lemma Dispatch_nil order files failed :
  Dispatch order fetcher [] files failed = Returns (files, failed).
Proof. by destruct order. Qed.

Lemma Dispatch_step_mod i order running files failed :
  running ≠ [] →
  Dispatch (ev_step i :: order) fetcher running files failed
  = Dispatch (ev_step (i mod length running) :: order) fetcher running files failed.
Proof.
  intros Hne. rewrite !Dispatch_step by done. cbv zeta.
  by rewrite Nat.Div0.mod_mod.
Qed.







Variable root : Descriptor.



End dispatch_facts.

Section one_goroutine.
Context `{GoLib}.
Variable fetcher : Fetcher.

(** one goroutine in the loop over its layers: no event disturbs it *)
Lemma Dispatch_alone_layers order ls files failed :
  (length ls < steps order)%nat →
  Dispatch order fetcher [go_Layers ls] files failed
  = Returns (recordLayers ls files, failed).
Proof.
  revert ls files. induction order as [|[i|] order IH]; intros ls files Hlen.
  - unfold steps in Hlen. simpl in Hlen. lia.
  - rewrite Dispatch_step_mod by done. simpl length. rewrite Nat.mod_1_r.
    rewrite (Dispatch_step_at fetcher order [] (go_Layers ls) []).
    destruct ls as [|l ls].
    + simpl. apply Dispatch_nil.
    + simpl app. rewrite IH; [done|]. unfold steps in *. simpl in *. lia.
  - rewrite Dispatch_clash by done.
    assert ((2 <=? length (List.filter assigns [go_Layers ls]))%nat = false) as ->.
    { apply Nat.leb_gt. simpl. destruct (existsb _ ls); simpl; lia. }
    apply IH. by unfold steps in *.
Qed.

(** one goroutine about to call the handler *)
Lemma Dispatch_alone_handle order d files failed :
  (0 < steps order)%nat →
  ∃ order',
    steps order = S (steps order')
    ∧ Dispatch order fetcher [go_Handle d] files failed
      = match handler fetcher d with
        | toFile ls => Dispatch order' fetcher [go_Layers ls] files failed
        | toVisit cs => Dispatch order' fetcher (map go_Handle cs) files failed
        | handlerFailed err =>
            Returns (files, if errors_Is err sErrSkipDesc then failed
                            else firstError failed err)
        end.
Proof.
  induction order as [|[i|] order IH]; intros Hlen.
  - unfold steps in Hlen. simpl in Hlen. lia.
  - exists order. split; [done|].
    rewrite Dispatch_step_mod by done. simpl length. rewrite Nat.mod_1_r.
    rewrite (Dispatch_step_at fetcher order [] (go_Handle d) []).
    destruct (handler fetcher d) as [ls|cs|err]; simpl; [done | by rewrite app_nil_r |].
    destruct (errors_Is err sErrSkipDesc); apply Dispatch_nil.
  - destruct IH as (order' & Hsteps & Hrun); [by unfold steps in *|].
    exists order'. split; [done|]. by rewrite Dispatch_clash.
Qed.


End one_goroutine.



(** X18.  With a manifest as root there is one goroutine, and nothing can
    come between the turns of its loop: given events for the call of the
    handler, a turn for each layer and the return, [buildFileMap] returns
    the map in which every titled layer has been filed in the order of the
    manifest, so that under a cleaned title stands the last layer that has
    it. *)
Theorem buildFileMap_manifest_root `{GoLib} (order : list Event) (fetcher : Fetcher)
    (rootDesc : Descriptor) (b : string) (ls : list Descriptor) :
  isManifest (MediaType rootDesc) = true →
  fetchAll fetcher rootDesc = inr b →
  json_Unmarshal_Manifest b = inr ls →
  (length ls + 2 ≤ steps order)%nat →
  buildFileMap order fetcher rootDesc = Returns (inr (recordLayers ls ∅))
  ∧ ∀ front l rest,
      ls = front ++ l :: rest →
      titled l →
      (∀ l', l' ∈ rest → titled l' → keyOf l' ≠ keyOf l) →
      recordLayers ls ∅ !! keyOf l = Some l.
Proof.
  intros Hmedia Hfetch Hjson Hlen. split.
  - unfold buildFileMap. unfold_bind.
    destruct (Dispatch_alone_handle fetcher order rootDesc ∅ None)
      as (order' & Hsteps & ->); [lia|].
    unfold handler. rewrite Hmedia, Hfetch, Hjson.
    rewrite Dispatch_alone_layers; [done|lia].
  - intros front l rest -> Ht Hrest. by apply recordLayers_last.
Qed.

Lemma buildFileMap_manifest_root_witness :
  buildFileMap (H := Sample.lib) [ev_step 7; ev_clash; ev_step 0; ev_step 3; ev_step 1;
                                  ev_step 0]
    Sample.registry Sample.manifestB
  = Returns (inr (recordLayers (H := Sample.lib)
                    [Sample.md5Deb; Sample.packagesB; Sample.textFile] ∅)).
Proof.
  apply (buildFileMap_manifest_root (H := Sample.lib) _ Sample.registry Sample.manifestB
           "manifest B"); [reflexivity.. | vm_compute; lia].
Defined.

(** X19.  A root that is neither a manifest nor an index gives the empty
    map.  A root whose handler fails gives that error and no map, unless the
    error is [ErrSkipDesc], which [images.Dispatch] takes for success: then
    the map is empty. *)
Theorem buildFileMap_root_alone `{GoLib} (order : list Event) (fetcher : Fetcher)
    (rootDesc : Descriptor) :
  (0 < steps order)%nat →
  (isManifest (MediaType rootDesc) = false → isIndex (MediaType rootDesc) = false →
     buildFileMap order fetcher rootDesc = Returns (inr ∅))
  ∧ (∀ err, handler fetcher rootDesc = handlerFailed err →
       buildFileMap order fetcher rootDesc
       = Returns (if errors_Is err sErrSkipDesc then inr ∅ else inl err)).
Proof.
  intros Hlen. unfold buildFileMap. unfold_bind.
  destruct (Dispatch_alone_handle fetcher order rootDesc ∅ None)
    as (order' & Hsteps & ->); [done|].
  split.
  - intros Hno1 Hno2. unfold handler. rewrite Hno1, Hno2. simpl.
    by rewrite Dispatch_nil.
  - intros err ->. by destruct (errors_Is err sErrSkipDesc).
Qed.

Lemma buildFileMap_root_alone_witness :
  buildFileMap (H := Sample.lib) [ev_step 0] Sample.registry Sample.config
  = Returns (inr ∅)
  ∧ buildFileMap (H := Sample.lib) [ev_clash; ev_step 0]
      (mkFetcher (λ _, inl (errorString "not found"))) Sample.rootIndex
    = Returns (inl (errorString "not found")).
Proof.
  split.
  - apply (buildFileMap_root_alone (H := Sample.lib) [ev_step 0]); [vm_compute; lia |..];
      reflexivity.
  - apply (proj2 (buildFileMap_root_alone (H := Sample.lib) [ev_clash; ev_step 0]
                    (mkFetcher (λ _, inl (errorString "not found"))) Sample.rootIndex
                    ltac:(vm_compute; lia))
             (errorString "not found")).
    reflexivity.
Defined.
